(** * xssuccessor: a shallow embedding of the scanning core

    The development follows [xssuccessor.py].  Python strings are
    modelled by [string], read as the sequence of UTF-8 code units of
    the Python text; every delimiter the program looks for is ASCII, so
    searching, splitting and replacing act on code units exactly as they
    act on code points.  The dictionaries with a fixed key set are
    records, the Python sets are [gset string], and everything the
    program observes from the network, the browser or the clock is an
    explicit argument of the function that observes it. *)

From Stdlib Require Import String Ascii List ZArith QArith Qminmax Lia Lqa Bool.
From Stdlib Require Floats.
From stdpp Require Import gmap strings list.

Local Open Scope string_scope.
Local Open Scope list_scope.

#[local] Set Warnings "-clear-no-such-hyp".

(** ** Python string primitives *)

Module PyStr.

(** [c in s] for a one-character needle. *)
Fixpoint contains (c : ascii) (s : string) : bool :=
  match s with
  | EmptyString => false
  | String a s' => if Ascii.eqb a c then true else contains c s'
  end.

(** [s.split(sep)] for a one-character separator: never the empty
    list, an empty input gives one empty field. *)
Fixpoint split (sep : ascii) (s : string) : list string :=
  match s with
  | EmptyString => [EmptyString]
  | String a s' =>
      if Ascii.eqb a sep then EmptyString :: split sep s'
      else match split sep s' with
           | h :: t => String a h :: t
           | [] => [String a EmptyString]
           end
  end.

(** [sep.join(l)]. *)
Fixpoint join (sep : string) (l : list string) : string :=
  match l with
  | [] => EmptyString
  | [x] => x
  | x :: rest => x +:+ sep +:+ join sep rest
  end.

(** [s.replace(old, new)] for a one-character [old]. *)
Fixpoint replace (old : ascii) (new : string) (s : string) : string :=
  match s with
  | EmptyString => EmptyString
  | String a s' =>
      if Ascii.eqb a old then new +:+ replace old new s'
      else String a (replace old new s')
  end.

(** [s.startswith(p)]. *)
Definition startswith (p s : string) : bool := String.prefix p s.

(** [l[i]] on a list of strings; [None] stands for [IndexError]. *)
Definition item (l : list string) (i : nat) : option string := nth_error l i.

(** [s.rstrip(c)] for a one-character set. *)
Fixpoint rstrip (c : ascii) (s : string) : string :=
  match s with
  | EmptyString => EmptyString
  | String a s' =>
      match rstrip c s' with
      | EmptyString => if Ascii.eqb a c then EmptyString else String a EmptyString
      | r => String a r
      end
  end.

(** ASCII part of [s.lower()]; code units of non-ASCII text are left
    as they are. *)
Definition lower_char (a : ascii) : ascii :=
  let n := nat_of_ascii a in
  if (65 <=? n)%nat && (n <=? 90)%nat then ascii_of_nat (n + 32) else a.

Fixpoint lower (s : string) : string :=
  match s with
  | EmptyString => EmptyString
  | String a s' => String (lower_char a) (lower s')
  end.

(** [l.index(x)] on a list of strings; [None] stands for [ValueError]. *)
Fixpoint index (x : string) (l : list string) : option nat :=
  match l with
  | [] => None
  | y :: l' => if String.eqb y x then Some 0%nat
               else option_map S (index x l')
  end.

(** [list(dict.fromkeys(l))]: first occurrences, in order. *)
Fixpoint fromkeys (seen : gset string) (l : list string) : list string :=
  match l with
  | [] => []
  | x :: l' => if decide (x ∈ seen) then fromkeys seen l'
               else x :: fromkeys ({[x]} ∪ seen) l'
  end.

End PyStr.

(** ** Notification adapter *)

Module Telegram.

(** The module-level settings [TELEGRAM_NOTIFICATIONS_ENABLED],
    [TELEGRAM_BOT_TOKEN] and [TELEGRAM_CHAT_ID]. *)
Record settings := {
  notifications_enabled : bool;
  bot_token : string;
  chat_id : string
}.

(** The JSON body handed to [http_session.post]. *)
Record post := {
  post_url : string;
  post_chat_id : string;
  post_text : string;
  post_parse_mode : string
}.

Definition quot : ascii := "034"%char.
Definition apos : ascii := "039"%char.

(** The chain of [replace] calls of [send_telegram_notification], in
    the order the source applies them. *)
Definition escape_message (message : string) : string :=
  PyStr.replace apos "&#39;"
    (PyStr.replace quot "&quot;"
      (PyStr.replace "&" "&amp;"
        (PyStr.replace ">" "&gt;"
          (PyStr.replace "<" "&lt;" message)))).

Definition truthy (s : string) : bool := negb (String.eqb s EmptyString).

(** [send_telegram_notification]: [None] when the guard returns
    early, otherwise the request that is posted. *)
Definition send_telegram_notification (cfg : settings) (message : string)
  : option post :=
  if negb (notifications_enabled cfg) || negb (truthy (bot_token cfg))
     || negb (truthy (chat_id cfg))
  then None
  else Some {| post_url := "https://api.telegram.org/bot" +:+ bot_token cfg
                             +:+ "/sendMessage";
               post_chat_id := chat_id cfg;
               post_text := escape_message message;
               post_parse_mode := "HTML" |}.

(** Standard HTML escaping, written from the specification: every
    character is looked at once and replaced by its entity. *)
Definition html_entity (a : ascii) : string :=
  if Ascii.eqb a "&" then "&amp;"
  else if Ascii.eqb a "<" then "&lt;"
  else if Ascii.eqb a ">" then "&gt;"
  else if Ascii.eqb a quot then "&quot;"
  else if Ascii.eqb a apos then "&#39;"
  else String a EmptyString.

Fixpoint html_escape_spec (s : string) : string :=
  match s with
  | EmptyString => EmptyString
  | String a s' => html_entity a +:+ html_escape_spec s'
  end.

End Telegram.

(** ** The parts of [urllib.parse] the scanner calls

    [urlparse], [unquote] and [parse_qs] belong to the Python standard
    library; they are modelled here on the input the scanner can give
    them.  [urlparse] raises [ValueError] only from its checks of the
    network location: the unbalanced-bracket check is modelled (result
    [None]), the validation of a bracketed IPv6 literal and the NFKC
    check of a non-ASCII host are not. *)

Module Urllib.

Record ParseResult := {
  scheme : string;
  netloc : string;
  path : string;
  params : string;
  query : string;
  fragment : string
}.

Definition is_alpha (a : ascii) : bool :=
  let n := nat_of_ascii a in
  ((65 <=? n)%nat && (n <=? 90)%nat) || ((97 <=? n)%nat && (n <=? 122)%nat).

Definition is_digit (a : ascii) : bool :=
  let n := nat_of_ascii a in (48 <=? n)%nat && (n <=? 57)%nat.

(** [scheme_chars]: letters, digits and [+-.]. *)
Definition scheme_char (a : ascii) : bool :=
  is_alpha a || is_digit a || Ascii.eqb a "+" || Ascii.eqb a "-"
  || Ascii.eqb a ".".

Fixpoint all_chars (p : ascii -> bool) (s : string) : bool :=
  match s with
  | EmptyString => true
  | String a s' => p a && all_chars p s'
  end.

(** [s.partition(c)]: the text before and after the first [c]. *)
Fixpoint break_at (c : ascii) (s : string) : option (string * string) :=
  match s with
  | EmptyString => None
  | String a s' =>
      if Ascii.eqb a c then Some (EmptyString, s')
      else match break_at c s' with
           | Some (l, r) => Some (String a l, r)
           | None => None
           end
  end.

(** The longest prefix whose characters satisfy [p], and the rest. *)
Fixpoint span (p : ascii -> bool) (s : string) : string * string :=
  match s with
  | EmptyString => (EmptyString, EmptyString)
  | String a s' =>
      if p a then let '(l, r) := span p s' in (String a l, r)
      else (EmptyString, s)
  end.

(** [url.lstrip(_WHATWG_C0_CONTROL_OR_SPACE)]. *)
Definition c0_or_space (a : ascii) : bool := (nat_of_ascii a <=? 32)%nat.

Definition lstrip_c0 (s : string) : string := snd (span c0_or_space s).

(** Removal of [_UNSAFE_URL_BYTES_TO_REMOVE]: tab, line feed,
    carriage return. *)
Definition unsafe_char (a : ascii) : bool :=
  Ascii.eqb a "009" || Ascii.eqb a "010" || Ascii.eqb a "013".

Fixpoint remove_unsafe (s : string) : string :=
  match s with
  | EmptyString => EmptyString
  | String a s' =>
      if unsafe_char a then remove_unsafe s' else String a (remove_unsafe s')
  end.

Definition split_scheme (url : string) : string * string :=
  match break_at ":" url with
  | Some (String a pre, rest) =>
      if is_alpha a && all_chars scheme_char (String a pre)
      then (PyStr.lower (String a pre), rest)
      else (EmptyString, url)
  | _ => (EmptyString, url)
  end.

Definition netloc_stop (a : ascii) : bool :=
  Ascii.eqb a "/" || Ascii.eqb a "?" || Ascii.eqb a "#".

(** [_splitnetloc(url, 2)] behind the test [url[:2] == '//']. *)
Definition split_netloc (url : string) : string * string :=
  match url with
  | String "/" (String "/" rest) => span (fun a => negb (netloc_stop a)) rest
  | _ => (EmptyString, url)
  end.

Definition brackets_balanced (nl : string) : bool :=
  Bool.eqb (PyStr.contains "[" nl) (PyStr.contains "]" nl).

(** [url.split(c, 1)] when [c] occurs, the whole text otherwise. *)
Definition cut (c : ascii) (s : string) : string * string :=
  match break_at c s with
  | Some lr => lr
  | None => (s, EmptyString)
  end.

Definition uses_params : list string :=
  [""; "ftp"; "hdl"; "prospero"; "http"; "imap"; "https"; "shttp"; "rtsp";
   "rtsps"; "rtspu"; "sip"; "sips"; "mms"; "sftp"; "tel"].

(** [_splitparams]: the first [;] at or after the last [/]. *)
Fixpoint splitparams (s : string) : string * string :=
  match s with
  | EmptyString => (EmptyString, EmptyString)
  | String a s' =>
      if PyStr.contains "/" s' then
        let '(p, q) := splitparams s' in (String a p, q)
      else if Ascii.eqb a ";" then (EmptyString, s')
      else let '(p, q) := splitparams s' in (String a p, q)
  end.

(** [urlparse]; [None] is its [ValueError].  The result is the
    library's on every URL whose network location is ASCII and has no
    square bracket ([plain_host] below): the library looks further
    into a bracketed literal and into the NFKC form of other text
    only, and may raise there where this function gives a result. *)
Definition urlparse (url0 : string) : option ParseResult :=
  let url := remove_unsafe (lstrip_c0 url0) in
  let '(sch, url1) := split_scheme url in
  let '(nl, url2) := split_netloc url1 in
  if negb (brackets_balanced nl) then None
  else
    let '(url3, frag) := cut "#" url2 in
    let '(url4, qry) := cut "?" url3 in
    let '(pth, prm) :=
      if existsb (String.eqb sch) uses_params && PyStr.contains ";" url4
      then splitparams url4 else (url4, EmptyString) in
    Some {| scheme := sch; netloc := nl; path := pth; params := prm;
            query := qry; fragment := frag |}.

Definition hex_val (a : ascii) : option nat :=
  let n := nat_of_ascii a in
  if (48 <=? n)%nat && (n <=? 57)%nat then Some (n - 48)%nat
  else if (65 <=? n)%nat && (n <=? 70)%nat then Some (n - 55)%nat
  else if (97 <=? n)%nat && (n <=? 102)%nat then Some (n - 87)%nat
  else None.

(** [unquote]: every [%XX] gives the code unit [XX]; a [%] that is not
    followed by two hexadecimal digits stays.  (CPython then decodes
    the result as UTF-8 and puts U+FFFD where it is invalid; that
    touches no ASCII character.) *)
Fixpoint unquote (s : string) : string :=
  match s with
  | EmptyString => EmptyString
  | String a s' =>
      if Ascii.eqb a "%" then
        match s' with
        | String h1 (String h2 rest) =>
            match hex_val h1, hex_val h2 with
            | Some x, Some y =>
                String (ascii_of_nat (16 * x + y)) (unquote rest)
            | _, _ => String a (unquote s')
            end
        | _ => String a (unquote s')
        end
      else String a (unquote s')
  end.

(** The keys of [parse_qs(qs, keep_blank_values=True)], in insertion
    order: empty fields are skipped, a field without [=] is kept with
    a blank value, a repeated name is one key.  The keys are the
    library's where the percent-decoded names are valid UTF-8; names
    with invalid bytes, which the library replaces by U+FFFD and may
    so merge, stay apart here. *)
Definition parse_qs_keys (qs : string) : list string :=
  PyStr.fromkeys ∅
    (map (fun nv => unquote (PyStr.replace "+" " "
                               (hd EmptyString (PyStr.split "=" nv))))
         (filter (fun nv => nv ≠ EmptyString) (PyStr.split "&" qs))).

End Urllib.

(** ** URL normaliser *)

Definition truthy (s : string) : bool := negb (String.eqb s EmptyString).

(** The loop shared by [validate_url] and the parameter count of
    [load_files]: the names of the fields [name=...] with a non-empty
    name. *)
Definition named_params (fields : list string) : list string :=
  flat_map (fun param =>
              if truthy param && PyStr.contains "=" param then
                let param_name := hd EmptyString (PyStr.split "=" param) in
                if truthy param_name then [param_name] else []
              else [])
           fields.

(** [validate_url].  An [IndexError] would be caught by the function's
    [except] and give [False]; [None] of the inner computation is that
    case. *)
Definition validate_url (url : string) : bool :=
  let decoded_url := Urllib.unquote url in
  if negb (PyStr.startswith "http://" decoded_url
           || PyStr.startswith "https://" decoded_url) then false
  else if negb (PyStr.contains "?" decoded_url) then false
  else
    let query_part :=
      if PyStr.contains "#" decoded_url then
        after ← PyStr.item (PyStr.split "#" decoded_url) 1;
        if PyStr.contains "?" after then PyStr.item (PyStr.split "?" after) 1
        else PyStr.item (PyStr.split "?" decoded_url) 1
      else PyStr.item (PyStr.split "?" decoded_url) 1 in
    match query_part with
    | Some q => match named_params (PyStr.split "&" q) with
                | [] => false
                | _ :: _ => true
                end
    | None => false
    end.

(** The loop of [get_url_signature] over [query.split('&')]. *)
Definition signature_params (fields : list string) : list string :=
  flat_map (fun param =>
              if PyStr.contains "=" param then
                let name := hd EmptyString (PyStr.split "=" param) in
                if truthy name then [name +:+ "="] else []
              else [])
           fields.

(** The body of the [try] of [get_url_signature]; [None] is an
    exception. *)
Definition get_url_signature_try (url : string) : option string :=
  parsed ← Urllib.urlparse url;
  query ← (if PyStr.contains "#" url then
             after ← PyStr.item (PyStr.split "#" url) 1;
             if PyStr.contains "?" after
             then PyStr.item (PyStr.split "?" after) 1
             else Some (Urllib.query parsed)
           else Some (Urllib.query parsed));
  let params :=
    if truthy query then signature_params (PyStr.split "&" query) else [] in
  let base := Urllib.scheme parsed +:+ "://" +:+ Urllib.netloc parsed
              +:+ Urllib.path parsed in
  Some (match params with
        | [] => base
        | _ :: _ => base +:+ "?" +:+ PyStr.join "&" params
        end).

Definition get_url_signature (url : string) : string :=
  default url (get_url_signature_try url).

(** The deduplicating loop of [load_files] over the stripped, non-blank
    lines of the URL list. *)
Record url_loader := {
  valid_urls : list string;
  seen_signatures : gset string;
  skipped_same_params : nat
}.

Definition load_url (st : url_loader) (url : string) : url_loader :=
  if negb (validate_url url) then st
  else
    let signature := get_url_signature url in
    if decide (signature ∈ seen_signatures st) then
      {| valid_urls := valid_urls st;
         seen_signatures := seen_signatures st;
         skipped_same_params := S (skipped_same_params st) |}
    else
      {| valid_urls := valid_urls st ++ [url];
         seen_signatures := {[signature]} ∪ seen_signatures st;
         skipped_same_params := skipped_same_params st |}.

Definition load_urls (all_urls : list string) : url_loader :=
  fold_left load_url all_urls
    {| valid_urls := []; seen_signatures := ∅; skipped_same_params := 0 |}.

(** What [load_files] leaves in [self.urls] for a URL list;
    [inr 2] is [sys.exit(2)]. *)
Definition load_files_urls (all_urls : list string) : list string + Z :=
  match valid_urls (load_urls all_urls) with
  | [] => inr 2%Z
  | us => inl us
  end.

(** [load_files] on the payload file's stripped, non-blank lines. *)
Definition load_payloads (lines : list string) : list string :=
  PyStr.fromkeys ∅ lines.

(** ** Scan orchestrator: which parameters get a worker *)

Definition URLS_BATCH_SIZE : nat := 5.

(** [get_parameter_context]; [None] is the [ValueError] of [urlparse]. *)
Definition get_parameter_context (url param : string) : option string :=
  parsed ← Urllib.urlparse url;
  let normalized_path := PyStr.rstrip "/" (Urllib.path parsed) in
  Some (Urllib.netloc parsed +:+ normalized_path +:+ ":" +:+ PyStr.lower param).

(** [should_test_parameter]: the body under [tested_parameters_lock] is
    one atomic step on the shared set. *)
Definition should_test_parameter (url param : string) (tested : gset string)
  : option (bool * gset string) :=
  context ← get_parameter_context url param;
  Some (if decide (context ∈ tested) then (false, tested)
        else (true, {[context]} ∪ tested)).

(** The part of the scanner the orchestrator works on: the shared set,
    the workers created so far (one [(url, param)] per
    [asyncio.create_task]) and the [running] flag. *)
Record orchestrator := {
  tested_parameters : gset string;
  tasks : list (string * string);
  running : bool
}.

(** [XSSScanner.__init__] and [stop]. *)
Definition orchestrator_init : orchestrator :=
  {| tested_parameters := ∅; tasks := []; running := true |}.

Definition stop (st : orchestrator) : orchestrator :=
  {| tested_parameters := tested_parameters st; tasks := tasks st;
     running := false |}.

(** [for param in params: if await self.should_test_parameter(...)].
    The flag of the result says whether the loop ran to its end; an
    exception leaves the [try] of [process_batch] with what was done
    so far. *)
Fixpoint spawn_params (url : string) (params : list string)
  (st : orchestrator) : orchestrator * bool :=
  match params with
  | [] => (st, true)
  | param :: rest =>
      match should_test_parameter url param (tested_parameters st) with
      | None => (st, false)
      | Some (true, tested') =>
          spawn_params url rest
            {| tested_parameters := tested';
               tasks := tasks st ++ [(url, param)];
               running := running st |}
      | Some (false, _) => spawn_params url rest st
      end
  end.

(** The parameter names [process_batch] reads off a URL. *)
Definition url_params (url : string) : option (list string) :=
  parsed ← Urllib.urlparse url;
  Some (Urllib.parse_qs_keys (Urllib.query parsed)).

(** [process_batch]: the [for url in batch_urls] loop. *)
Fixpoint process_batch (batch_urls : list string) (st : orchestrator)
  : orchestrator :=
  match batch_urls with
  | [] => st
  | url :: rest =>
      if negb (running st) then st
      else match url_params url with
           | None => process_batch rest st
           | Some params => process_batch rest (fst (spawn_params url params st))
           end
  end.

(** [self.urls[i:i + URLS_BATCH_SIZE]] for [i] in
    [range(0, total_urls, URLS_BATCH_SIZE)]. *)
Fixpoint batches (fuel : nat) (urls : list string) : list (list string) :=
  match fuel, urls with
  | S fuel', _ :: _ =>
      take URLS_BATCH_SIZE urls :: batches fuel' (drop URLS_BATCH_SIZE urls)
  | _, _ => []
  end.

(** The batch loop of [run]. *)
Fixpoint run_batches (bs : list (list string)) (st : orchestrator)
  : orchestrator :=
  match bs with
  | [] => st
  | batch_urls :: rest =>
      if negb (running st) then st
      else run_batches rest (process_batch batch_urls st)
  end.

Definition run (urls : list string) (st : orchestrator) : orchestrator :=
  run_batches (batches (length urls) urls) st.

(** A whole scan of a URL list: [load_files], then [run] on a fresh
    scanner. *)
Definition scan (all_urls : list string) : orchestrator :=
  run (valid_urls (load_urls all_urls)) orchestrator_init.

(** The contexts the loops of [process_batch] ask for, in order: for
    each URL the names [url_params] reads, for each name the context
    [get_parameter_context] computes (both the code's). *)
Definition contexts_of (urls : list string) : list string :=
  flat_map (fun url =>
              match url_params url with
              | Some params =>
                  omap (fun param => get_parameter_context url param) params
              | None => []
              end)
           urls.

(** ** Alert validator, result sink and the per-parameter worker *)

(** [self.stats]: a dictionary with six fixed keys. *)
Record stats := {
  total_urls : nat;
  parameters_tested : nat;
  payloads_tested : nat;
  successful_payloads : nat;
  failed_payloads : nat;
  errors : nat
}.

(** The record appended to [json_results]. *)
Record finding := {
  f_timestamp : string;
  f_domain : string;
  f_parameter : string;
  f_payload : string;
  f_url : string;
  f_alert_text : option string;
  f_type : string
}.

(** The progress bar: [update(k)] adds [k] to [n]; a [tqdm] object is
    truthy when its [total] is positive. *)
Record tqdm := { total : nat; n : nat }.

Definition bar_truthy (bar : tqdm) : bool := (0 <? total bar)%nat.

Definition update (k : nat) (bar : tqdm) : tqdm :=
  {| total := total bar; n := n bar + k |}.

(** Traffic on the context pool, a queue shared by all workers: the
    page a worker gets is whatever the queue hands out. *)
Inductive pool_event :=
| PoolGet (page : nat)
| PoolPut (page : nat).

(** The state a worker reads and writes. *)
Record scanner := {
  st_stats : stats;
  error_types : gmap string nat;
  results : list string;
  json_results : list finding;
  notifications : list Telegram.post;
  progress_bar : tqdm;
  pool_log : list pool_event;
  error_log : list string;
  tokens_taken : nat;
  st_running : bool
}.

(** The configuration a worker reads. *)
Record config := {
  json_output : bool;
  telegram : Telegram.settings
}.

Definition set_stats (f : stats -> stats) (st : scanner) : scanner :=
  {| st_stats := f (st_stats st); error_types := error_types st;
     results := results st; json_results := json_results st;
     notifications := notifications st; progress_bar := progress_bar st;
     pool_log := pool_log st; error_log := error_log st;
     tokens_taken := tokens_taken st; st_running := st_running st |}.

Definition incr_payloads_tested (s : stats) : stats :=
  {| total_urls := total_urls s; parameters_tested := parameters_tested s;
     payloads_tested := S (payloads_tested s);
     successful_payloads := successful_payloads s;
     failed_payloads := failed_payloads s; errors := errors s |}.

Definition incr_successful_payloads (s : stats) : stats :=
  {| total_urls := total_urls s; parameters_tested := parameters_tested s;
     payloads_tested := payloads_tested s;
     successful_payloads := S (successful_payloads s);
     failed_payloads := failed_payloads s; errors := errors s |}.

Definition incr_failed_payloads (s : stats) : stats :=
  {| total_urls := total_urls s; parameters_tested := parameters_tested s;
     payloads_tested := payloads_tested s;
     successful_payloads := successful_payloads s;
     failed_payloads := S (failed_payloads s); errors := errors s |}.

Definition incr_errors (s : stats) : stats :=
  {| total_urls := total_urls s; parameters_tested := parameters_tested s;
     payloads_tested := payloads_tested s;
     successful_payloads := successful_payloads s;
     failed_payloads := failed_payloads s; errors := S (errors s) |}.

(** [stats['errors'] += 1] and the per-kind tally, under [stats_lock]. *)
Definition count_error (exc : string) (st : scanner) : scanner :=
  let st' := set_stats incr_errors st in
  {| st_stats := st_stats st';
     error_types := <[exc := S (default 0%nat (error_types st !! exc))]>
                      (error_types st);
     results := results st'; json_results := json_results st';
     notifications := notifications st'; progress_bar := progress_bar st';
     pool_log := pool_log st'; error_log := error_log st';
     tokens_taken := tokens_taken st'; st_running := st_running st' |}.

(** [if progress_bar: progress_bar.update(k)]. *)
Definition advance (k : nat) (st : scanner) : scanner :=
  {| st_stats := st_stats st; error_types := error_types st;
     results := results st; json_results := json_results st;
     notifications := notifications st;
     progress_bar := if bar_truthy (progress_bar st)
                     then update k (progress_bar st) else progress_bar st;
     pool_log := pool_log st; error_log := error_log st;
     tokens_taken := tokens_taken st; st_running := st_running st |}.

Definition log_pool (e : pool_event) (st : scanner) : scanner :=
  {| st_stats := st_stats st; error_types := error_types st;
     results := results st; json_results := json_results st;
     notifications := notifications st; progress_bar := progress_bar st;
     pool_log := pool_log st ++ [e]; error_log := error_log st;
     tokens_taken := tokens_taken st; st_running := st_running st |}.

Definition log_line (line : string) (st : scanner) : scanner :=
  {| st_stats := st_stats st; error_types := error_types st;
     results := results st; json_results := json_results st;
     notifications := notifications st; progress_bar := progress_bar st;
     pool_log := pool_log st; error_log := error_log st ++ [line];
     tokens_taken := tokens_taken st; st_running := st_running st |}.

(** [await self.rate_limiter.acquire()]: one token per call (the
    limiter itself is [RateLimiter] below). *)
Definition take_token (st : scanner) : scanner :=
  {| st_stats := st_stats st; error_types := error_types st;
     results := results st; json_results := json_results st;
     notifications := notifications st; progress_bar := progress_bar st;
     pool_log := pool_log st; error_log := error_log st;
     tokens_taken := S (tokens_taken st); st_running := st_running st |}.

(** What one call of [validate_alert] observes: the outcome of the
    reflection test on the fetched body, whether one of the
    [dom_patterns] matches it, the two probes read back from the page,
    the message of the dialog the handler accepted (if any) and the
    exception raised inside the [try] (if any). *)
Record page_obs := {
  obs_is_reflected : bool;
  obs_dom_pattern : bool;
  obs_dom_modified : bool;
  obs_script_executed : bool;
  obs_dialog : option string;
  obs_exception : option string
}.

(** The [if alert_triggered:] block that sets [xss_type]. *)
Definition classify (alert_triggered is_reflected dom_detected : bool)
  : string :=
  if alert_triggered then
    if is_reflected && dom_detected then "both"
    else if is_reflected then "reflected"
    else if dom_detected then "dom"
    else "reflected"
  else "unknown".

(** [dom_detected] as it stands when the type is determined. *)
Definition dom_detected_of (obs : page_obs) : bool :=
  let dom_detected := obs_dom_pattern obs in
  if dom_detected then
    if obs_dom_modified obs || obs_script_executed obs then true
    else dom_detected
  else dom_detected.

(** [validate_alert]: the triple [(alert_triggered, alert_text,
    xss_type)] and the scanner after the call. *)
Definition validate_alert (obs : page_obs) (st : scanner)
  : scanner * (bool * option string * string) :=
  match obs_exception obs with
  | Some exc => (count_error exc st, (false, None, "reflected"))
  | None =>
      let alert_triggered := bool_decide (is_Some (obs_dialog obs)) in
      let alert_text := obs_dialog obs in
      let xss_type :=
        classify alert_triggered (obs_is_reflected obs) (dom_detected_of obs) in
      (st, (alert_triggered, alert_text, xss_type))
  end.

Definition upper_char (a : ascii) : ascii :=
  let k := nat_of_ascii a in
  if (97 <=? k)%nat && (k <=? 122)%nat then ascii_of_nat (k - 32) else a.

(** ASCII part of [s.capitalize()]. *)
Definition capitalize (s : string) : string :=
  match s with
  | EmptyString => EmptyString
  | String a s' => String (upper_char a) (PyStr.lower s')
  end.

(** [str(x)] of an optional string inside an f-string. *)
Definition str_of (x : option string) : string := default "None" x.

Definition LF : string := String "010" EmptyString.

(** [record_vulnerability], under [output_lock]; [timestamp] is what
    [datetime.now().strftime(...)] returns. *)
Definition record_vulnerability (cfg : config) (timestamp : string)
  (domain param payload url : string) (alert_text : option string)
  (xss_type : string) (st : scanner) : scanner :=
  let result :=
    {| f_timestamp := timestamp; f_domain := domain; f_parameter := param;
       f_payload := payload; f_url := url; f_alert_text := alert_text;
       f_type := xss_type |} in
  let notification_message :=
    "🎯 XSS Vulnerability Found!" +:+ LF +:+ LF
    +:+ "🔍 Type: " +:+ capitalize xss_type +:+ " XSS" +:+ LF
    +:+ "🌐 Domain: " +:+ domain +:+ LF
    +:+ "📝 Parameter: " +:+ param +:+ LF
    +:+ "💉 Payload: " +:+ payload +:+ LF
    +:+ "🔗 URL: " +:+ url +:+ LF
    +:+ "⚠️ Alert Text: " +:+ str_of alert_text +:+ LF
    +:+ "🕒 Time: " +:+ timestamp in
  let sent :=
    match Telegram.send_telegram_notification (telegram cfg)
            notification_message with
    | Some p => notifications st ++ [p]
    | None => notifications st
    end in
  {| st_stats := st_stats st; error_types := error_types st;
     results :=
       if json_output cfg then results st
       else results st ++
            ["XSS Found: ";
             "Type: " +:+ capitalize xss_type +:+ " XSS";
             "Domain: " +:+ domain;
             "Parameter: " +:+ param;
             "Payload: " +:+ payload;
             "URL: " +:+ url;
             "Alert Text: " +:+ str_of alert_text;
             ""];
     json_results :=
       if json_output cfg then json_results st ++ [result]
       else json_results st;
     notifications := sent; progress_bar := progress_bar st;
     pool_log := pool_log st; error_log := error_log st;
     tokens_taken := tokens_taken st; st_running := st_running st |}.

(** What the target and the browser answer to one payload attempt:
    either the [try] around the GET raises before a page is borrowed
    ([log_ok] tells whether the handler's append to the error log
    succeeds), or the GET returns a status, the two hints computed from
    the body, and, should the browser be used, the page the pool hands
    out, what [validate_alert] observes and the time of recording. *)
Inductive attempt :=
| GetRaises (exc : string) (log_ok : bool)
| GetReturns (status : Z) (is_reflected potential_dom : bool)
    (page : nat) (obs : page_obs) (timestamp : string).

(** The handler of the inner [try] up to its write to the error log:
    count the error and its kind, advance the bar. *)
Definition handle_error (exc : string) (st : scanner) : scanner :=
  advance 1 (count_error exc st).

(** The [for payload in self.payloads] loop of
    [process_parameter_payloads].  [all] is [self.payloads], [todo] the
    payloads not yet reached, [i] the position of the next one and
    [inject payload] the URL built for it.  The statements between the
    loop head and the inner [try] raise nothing; an exception reaches
    the outer handler only out of the inner handler, when the error log
    cannot be appended to. *)
Fixpoint payload_loop (cfg : config) (inject : string -> string)
  (domain param : string) (all : list string) (env : nat -> attempt)
  (i : nat) (todo : list string) (st : scanner) : scanner :=
  match todo with
  | [] => st
  | payload :: rest =>
      if negb (st_running st) then st
      else
        let st := take_token st in
        let test_url := inject payload in
        let st := set_stats incr_payloads_tested st in
        let continue := payload_loop cfg inject domain param all env (S i) rest in
        match env i with
        | GetRaises exc log_ok =>
            let st := handle_error exc st in
            if log_ok then
              continue (log_line ("Error processing " +:+ test_url) st)
            else advance (length all) st
        | GetReturns status is_reflected potential_dom page obs timestamp =>
            if negb (status =? 200)%Z then continue (advance 1 st)
            else if negb is_reflected && negb potential_dom then
              continue (advance 1 (set_stats incr_failed_payloads st))
            else
              let st := log_pool (PoolGet page) st in
              let '(st, (alert_triggered, alert_text, xss_type)) :=
                validate_alert obs st in
              if alert_triggered then
                let st := set_stats incr_successful_payloads st in
                let type_label :=
                  if String.eqb xss_type "dom" then "DOM Based"
                  else "Reflected" in
                let st :=
                  record_vulnerability cfg timestamp domain param payload
                    test_url alert_text type_label st in
                match PyStr.index payload all with
                | Some idx =>
                    let remaining_payloads := (length all - (idx + 1))%nat in
                    log_pool (PoolPut page) (advance (1 + remaining_payloads) st)
                | None =>
                    continue
                      (log_line ("Error processing " +:+ test_url)
                         (handle_error "ValueError"
                            (log_pool (PoolPut page) st)))
                end
              else
                continue
                  (log_pool (PoolPut page)
                     (advance 1 (set_stats incr_failed_payloads st)))
        end
  end.

(** [process_parameter_payloads]; [None] is the [ValueError] of the
    [urlparse] call made before the [try]. *)
Definition process_parameter_payloads (cfg : config)
  (inject : string -> string) (url param : string) (payloads : list string)
  (env : nat -> attempt) (st : scanner) : option scanner :=
  parsed ← Urllib.urlparse url;
  let domain := Urllib.netloc parsed in
  Some (payload_loop cfg inject domain param payloads env 0 payloads st).

(** How many iterations of the loop reach the GET: the number of
    payload attempts. *)
Definition attempts (before after : scanner) : nat :=
  (payloads_tested (st_stats after) - payloads_tested (st_stats before))%nat.

Definition progress (before after : scanner) : nat :=
  (n (progress_bar after) - n (progress_bar before))%nat.

(** ** Rate limiter

    [time.time()] and the token count are floating-point numbers in the
    source.  This module is the class over exact rationals, the
    idealisation in which the throughput of the limiter is analysed;
    [RateLimiter64] below is the class in binary64, for what is said
    of single operations.  The reading of the clock is an argument of
    each operation. *)

Module RateLimiter.

Local Open Scope Q_scope.

Record t := {
  rate_limit : Z;
  tokens : Q;
  last_update : Q;
  _sleep_time : Q
}.

(** [__init__]. *)
Definition init (rate_limit : Z) (now : Q) : t :=
  {| rate_limit := rate_limit;
     tokens := inject_Z rate_limit;
     last_update := now;
     _sleep_time := if (0 <? rate_limit)%Z then 1 / inject_Z rate_limit
                    else 0 |}.

(** [acquire], the body under [self.lock]: the limiter after the call
    and the [asyncio.sleep] it made, if any.  [Qmin a b] is [a] unless
    [b < a], as Python's [min(a, b)]. *)
Definition acquire (now : Q) (rl : t) : t * option Q :=
  let time_passed := now - last_update rl in
  let tokens1 :=
    Qmin (inject_Z (rate_limit rl))
         (tokens rl + time_passed * inject_Z (rate_limit rl)) in
  if Qlt_le_dec tokens1 1 then
    let sleep_time := _sleep_time rl in
    ({| rate_limit := rate_limit rl; tokens := 1 - 1;
        last_update := now; _sleep_time := _sleep_time rl |},
     Some sleep_time)
  else
    ({| rate_limit := rate_limit rl; tokens := tokens1 - 1;
        last_update := now; _sleep_time := _sleep_time rl |},
     None).

(** [reset]. *)
Definition reset (now : Q) (rl : t) : t :=
  {| rate_limit := rate_limit rl;
     tokens := inject_Z (rate_limit rl);
     last_update := now;
     _sleep_time := _sleep_time rl |}.

(** The token count after the refill step of [acquire], as the
    specification words it: elapsed time times [R], capped at [R]. *)
Definition refilled (now : Q) (rl : t) : Q :=
  Qmin (inject_Z (rate_limit rl))
       (tokens rl + (now - last_update rl) * inject_Z (rate_limit rl)).

(** Callers queue on the lock.  A caller that asks at [arrival] enters
    [acquire] when the lock is free, reads the clock there, and leaves
    after the sleep, which lasts [_sleep_time] plus a non-negative
    [overshoot]; the lock is free again at that time.  The result is
    the list of the times at which the calls complete. *)
Fixpoint serve (calls : list (Q * Q)) (free_at : Q) (rl : t) : list Q :=
  match calls with
  | [] => []
  | (arrival, overshoot) :: rest =>
      let now := Qmax arrival free_at in
      let '(rl', slept) := acquire now rl in
      let done :=
        match slept with
        | Some d => Qred (now + d + overshoot)
        | None => Qred now
        end in
      done :: serve rest done rl'
  end.

(** The completions that fall in the interval [[from, from + T)]. *)
Definition completions_within (from T : Q) (done : list Q) : nat :=
  length (filter (fun d => Qle_bool from d && negb (Qle_bool (from + T) d))
                 done).

End RateLimiter.

(** ** Sample data

    A scanner as [__init__] leaves it (with the progress bar [run]
    creates for [total_tests] tests), and an observation of the page
    without exception. *)

Definition sample_obs (reflected dom : bool) (dialog : option string)
  : page_obs :=
  {| obs_is_reflected := reflected; obs_dom_pattern := dom;
     obs_dom_modified := false; obs_script_executed := false;
     obs_dialog := dialog; obs_exception := None |}.

Definition fresh_scanner (total_tests : nat) : scanner :=
  {| st_stats := {| total_urls := 0; parameters_tested := 0;
                    payloads_tested := 0; successful_payloads := 0;
                    failed_payloads := 0; errors := 0 |};
     error_types := ∅; results := []; json_results := [];
     notifications := [];
     progress_bar := {| total := total_tests; n := 0 |};
     pool_log := []; error_log := []; tokens_taken := 0;
     st_running := true |}.

Definition json_cfg : config :=
  {| json_output := true;
     telegram := {| Telegram.notifications_enabled := false;
                    Telegram.bot_token := ""; Telegram.chat_id := "" |} |}.

(** A stand-in for the URL the worker builds for the parameter [q] of
    [https://a/x?q=1]: the payload is put in as it is, where
    [urlencode] percent-encodes it.  The worker's model takes the
    construction as a parameter; this one is used to run it. *)
Definition sample_inject (payload : string) : string :=
  "https://a/x?q=" +:+ payload.

Definition sample_time : string := "2024-01-01 00:00:00".

(** ** Reading an environment of attempts *)

(** The attempt ends with an alert confirmed by the browser. *)
Definition confirms (a : attempt) : bool :=
  match a with
  | GetReturns status is_reflected potential_dom _ obs _ =>
      (status =? 200)%Z && (is_reflected || potential_dom)
      && bool_decide (obs_exception obs = None)
      && bool_decide (is_Some (obs_dialog obs))
  | GetRaises _ _ => false
  end.

(** The attempt raises and the handler cannot append to the error log,
    so the exception reaches the outer handler. *)
Definition escapes (a : attempt) : bool :=
  match a with
  | GetRaises _ log_ok => negb log_ok
  | GetReturns _ _ _ _ _ _ => false
  end.

(** Payloads reached when the loop stops at the first confirmed alert. *)
Fixpoint attempted (env : nat -> attempt) (i : nat) (todo : list string)
  : nat :=
  match todo with
  | [] => 0
  | _ :: rest => if confirms (env i) then 1 else S (attempted env (S i) rest)
  end.

(** A target that answers 404 to the first payload and resets the
    connection on the second, while the error log cannot be opened. *)
Definition env_log_failure (i : nat) : attempt :=
  match i with
  | 0 => GetReturns 404 false false 0 (sample_obs false false None) sample_time
  | _ => GetRaises "ClientOSError" false
  end.

(** A target on which the second payload fires an alert. *)
Definition env_hit_second (i : nat) : attempt :=
  match i with
  | 1 => GetReturns 200 true false 0 (sample_obs true false (Some "1"))
           sample_time
  | _ => GetReturns 200 false false 0 (sample_obs false false None) sample_time
  end.

Definition telegram_on : Telegram.settings :=
  {| Telegram.notifications_enabled := true;
     Telegram.bot_token := "123:abc"; Telegram.chat_id := "42" |}.


(** Twelve callers that all ask at time 0 and wait on the lock; every
    sleep lasts a hundredth of a second longer than asked. *)
Definition saturating_calls : list (Q * Q) := repeat (0%Q, (1 # 100)%Q) 12.

(** The contexts of the workers created so far. *)
Definition task_contexts (st : orchestrator) : list string :=
  omap (fun task => get_parameter_context (fst task) (snd task)) (tasks st).

(** The contexts for which a sequence of calls of
    [should_test_parameter] answers [True].  Each call is atomic, so
    every interleaving of concurrent callers is such a sequence. *)
Fixpoint granted (calls : list (string * string)) (tested : gset string)
  : list string :=
  match calls with
  | [] => []
  | (url, param) :: rest =>
      match should_test_parameter url param tested with
      | Some (true, tested') =>
          from_option (fun c => [c]) [] (get_parameter_context url param)
          ++ granted rest tested'
      | Some (false, tested') => granted rest tested'
      | None => granted rest tested
      end
  end.

(** ** Reading URLs *)

(** [c] does not occur in [s]. *)
Definition lacks (c : ascii) (s : string) : Prop := PyStr.contains c s = false.

(** No tab, line feed or carriage return: [urlsplit] removes nothing. *)
Definition safe (s : string) : Prop :=
  Urllib.all_chars (fun a => negb (Urllib.unsafe_char a)) s = true.

(** The text is empty or begins with [/]. *)
Definition rooted (s : string) : Prop :=
  s = EmptyString \/ exists s', s = String "/" s'.

(** The path [urlparse] reports for the text between the network
    location and the query. *)
Definition path_of (s : string) : string :=
  if PyStr.contains ";" s then fst (Urllib.splitparams s) else s.




(** An absolute URL written out from its parts. *)
Definition render_url (sch nl pth q : string) : string :=
  sch +:+ "://" +:+ nl +:+ pth +:+ "?" +:+ q.

Definition http_scheme (sch : string) : Prop := sch = "http" \/ sch = "https".






(** The parts of an absolute URL before its query. *)
Definition url_base (sch nl pth : string) : Prop :=
  http_scheme sch /\ safe nl /\ safe pth
  /\ Urllib.all_chars (fun a => negb (Urllib.netloc_stop a)) nl = true
  /\ Urllib.brackets_balanced nl = true
  /\ lacks "?" pth /\ lacks "#" pth /\ rooted pth.


(** The workers created so far cover the tested set, one worker per
    context. *)
Definition one_worker_per_context (st : orchestrator) : Prop :=
  NoDup (task_contexts st)
  /\ tested_parameters st = list_to_set (task_contexts st).



(** ** Reading a worker's effects *)

(** The pool traffic of pages borrowed and returned one after the
    other. *)
Definition borrow_pairs (pages : list nat) : list pool_event :=
  flat_map (fun page => [PoolGet page; PoolPut page]) pages.

(** A finding as a worker for [domain] and [param] records it: for one
    of its payloads, at the URL built for that payload, with the text
    of the dialog and one of the two display labels. *)
Definition finding_of_worker (inject : string -> string)
  (domain param : string) (payloads : list string) (f : finding) : Prop :=
  f_domain f = domain /\ f_parameter f = param
  /\ f_payload f ∈ payloads /\ f_url f = inject (f_payload f)
  /\ is_Some (f_alert_text f)
  /\ (f_type f = "DOM Based" \/ f_type f = "Reflected").

(** The number of findings in the buffer of the chosen output mode:
    one record in JSON mode, a block of eight lines in text mode. *)
Definition findings_buffered (cfg : config) (st : scanner) : nat :=
  if json_output cfg then length (json_results st)
  else length (results st) / 8.

(** The buffers hold whole findings and the counter of successful
    payloads counts them. *)
Definition findings_counted (cfg : config) (st : scanner) : Prop :=
  (if json_output cfg then results st = []
   else json_results st = [] /\ exists k, length (results st) = (8 * k)%nat)
  /\ successful_payloads (st_stats st) = findings_buffered cfg st.

(** The part of [cleanup] that finishes the progress bar:
    [remaining = total - n], added when positive. *)
Definition cleanup_progress (bar : tqdm) : tqdm :=
  if bar_truthy bar then
    let remaining := (Z.of_nat (total bar) - Z.of_nat (n bar))%Z in
    if (0 <? remaining)%Z then update (Z.to_nat remaining) bar else bar
  else bar.

(** The part of [cleanup] that saves: [save_results] runs when
    [successful_payloads] is positive and writes the buffer of the
    chosen mode (the text lines joined by line feeds, or the records
    that [json.dumps] serialises). *)
Definition cleanup_saves (cfg : config) (st : scanner)
  : option (string + list finding) :=
  if (0 <? successful_payloads (st_stats st))%nat then
    Some (if json_output cfg then inr (json_results st)
          else inl (PyStr.join LF (results st)))
  else None.

(** The scanner a worker for [https://a/x?q=1] leaves when the second
    of two payloads fires an alert. *)
Definition after_hit_second : scanner :=
  payload_loop json_cfg sample_inject "a" "q" ["p1"; "p2"] env_hit_second 0
    ["p1"; "p2"] (fresh_scanner 2).

(** An observation with other values read back from the two probes. *)
Definition with_probes (dom_modified script_executed : bool) (obs : page_obs)
  : page_obs :=
  {| obs_is_reflected := obs_is_reflected obs;
     obs_dom_pattern := obs_dom_pattern obs;
     obs_dom_modified := dom_modified;
     obs_script_executed := script_executed;
     obs_dialog := obs_dialog obs;
     obs_exception := obs_exception obs |}.

(** The guard of [send_telegram_notification] returns early. *)
Definition telegram_off (cfg : Telegram.settings) : Prop :=
  Telegram.notifications_enabled cfg = false
  \/ Telegram.bot_token cfg = EmptyString
  \/ Telegram.chat_id cfg = EmptyString.

(** The text of a field before its first [=]. *)
Definition field_name (f : string) : string :=
  hd EmptyString (PyStr.split "=" f).


(** ** Counting the tests *)

(** The loop of [load_files] that counts the parameters of one URL:
    the names it collects.  [None] is an exception, which [load_files]
    turns into [sys.exit(1)]. *)
Definition counted_parameters (url : string) : option (list string) :=
  let decoded_url := Urllib.unquote url in
  query_part ←
    (if PyStr.contains "#" decoded_url then
       fragment_parts ← PyStr.item (PyStr.split "#" decoded_url) 1;
       if PyStr.contains "?" fragment_parts
       then PyStr.item (PyStr.split "?" fragment_parts) 1
       else if PyStr.contains "?" decoded_url
            then PyStr.item (PyStr.split "?" decoded_url) 1
            else Some EmptyString
     else if PyStr.contains "?" decoded_url
          then PyStr.item (PyStr.split "?" decoded_url) 1
          else Some EmptyString);
  Some (named_params (PyStr.split "&" query_part)).

(** [total_parameters] over [self.urls]. *)
Fixpoint total_parameters (urls : list string) : option nat :=
  match urls with
  | [] => Some 0%nat
  | url :: rest =>
      params ← counted_parameters url;
      total ← total_parameters rest;
      Some (length params + total)%nat
  end.

(** [self.total_tests], the total of the progress bar. *)
Definition total_tests (urls payloads : list string) : option nat :=
  total ← total_parameters urls;
  Some (total * length payloads)%nat.

(** ** Request headers *)

Module HeaderManager.

Definition is_lower_char (a : ascii) : bool :=
  let k := nat_of_ascii a in (97 <=? k)%nat && (k <=? 122)%nat.

Definition is_upper_char (a : ascii) : bool :=
  let k := nat_of_ascii a in (65 <=? k)%nat && (k <=? 90)%nat.

(** [s.title()] on ASCII text: a letter that follows a letter is put in
    lower case, any other letter in upper case. *)
Fixpoint title_from (previous_is_cased : bool) (s : string) : string :=
  match s with
  | EmptyString => EmptyString
  | String a s' =>
      if is_lower_char a then
        String (if previous_is_cased then a else upper_char a)
               (title_from true s')
      else if is_upper_char a then
        String (if previous_is_cased then PyStr.lower_char a else a)
               (title_from true s')
      else String a (title_from false s')
  end.

Definition title (s : string) : string := title_from false s.

(** The text is ASCII, where [title] above is what Python computes. *)
Definition is_ascii (s : string) : bool :=
  Urllib.all_chars (fun a => (nat_of_ascii a <? 128)%nat) s.

(** [{k.title(): v for k, v in custom_headers.items()}]: of two names
    with the same title the later one stays. *)
Definition titled (custom_headers : list (string * string))
  : gmap string string :=
  foldl (fun m kv => <[title kv.1 := kv.2]> m) ∅ custom_headers.

(** [merge_headers]; the custom headers are given by their items in
    insertion order ([None] and the empty dict are both falsy). *)
Definition merge_headers (default_headers : gmap string string)
  (custom_headers : list (string * string)) : gmap string string :=
  match custom_headers with
  | [] => default_headers
  | _ => titled custom_headers ∪ default_headers
  end.

End HeaderManager.

(** ** Version numbers of the updater *)

(** [int(text)] for a non-empty run of ASCII digits.  Other texts are
    not given a value here ([None]): most raise [ValueError], and the
    few more that [int] accepts (blanks around, a sign, underscores)
    are left out of the model. *)
Fixpoint digits_value (acc : Z) (s : string) : option Z :=
  match s with
  | EmptyString => Some acc
  | String a s' =>
      if Urllib.is_digit a
      then digits_value (10 * acc + (Z.of_nat (nat_of_ascii a) - 48))%Z s'
      else None
  end.

Definition py_int (s : string) : option Z :=
  match s with
  | EmptyString => None
  | _ => digits_value 0 s
  end.

(** [to_ints]: [list(map(int, v.split('.')))]. *)
Definition to_ints (v : string) : option (list Z) :=
  mapM py_int (PyStr.split "." v).

(** [a > b] on lists of integers. *)
Fixpoint list_gt (a b : list Z) : bool :=
  match a, b with
  | [], _ => false
  | _ :: _, [] => true
  | x :: a', y :: b' => if (x =? y)%Z then list_gt a' b' else (y <? x)%Z
  end.

Definition _compare_versions (v1 v2 : string) : option bool :=
  a ← to_ints v1;
  b ← to_ints v2;
  Some (list_gt a b).

(** ** Where the model of [urlparse] and of [lower] is the library's *)

(** A network location on which [urlsplit] makes no further check: it
    is ASCII (the check of the NFKC form is made on other text only)
    and has no square bracket (no IP literal to validate).  On other
    network locations CPython may raise [ValueError] where
    [Urllib.urlparse] gives a result. *)
Definition plain_host (nl : string) : Prop :=
  Urllib.all_chars
    (fun a => (nat_of_ascii a <? 128)%nat && negb (Ascii.eqb a "[")
              && negb (Ascii.eqb a "]")) nl = true.

(** A text of ASCII characters, on which [PyStr.lower] is
    [str.lower()]. *)
Definition ascii_text (s : string) : Prop := HeaderManager.is_ascii s = true.

(** A URL written in ASCII, without square bracket and without
    percent-escape: its network location is a [plain_host] and the
    parameter names read off it are ASCII. *)
Definition plain_url (u : string) : Prop :=
  Urllib.all_chars
    (fun a => (nat_of_ascii a <? 128)%nat && negb (Ascii.eqb a "[")
              && negb (Ascii.eqb a "]") && negb (Ascii.eqb a "%")) u = true.

(** ** The specification's reading of a URL *)

(** The query of a URL entry as the specification words it: on the
    URL-decoded input, what follows the first [?]; it ends at the
    fragment, unless the parameters follow a fragment. *)
Definition spec_query (u : string) : string :=
  let '(before, after) := Urllib.cut "?" (Urllib.unquote u) in
  if PyStr.contains "#" before then after else fst (Urllib.cut "#" after).

(** [params(u)]: the names of the parameters of the form [name=...]
    with a non-empty name, in their order. *)
Definition spec_params (u : string) : list string :=
  filter (fun name => name <> EmptyString)
    (map field_name
       (filter (fun f => PyStr.contains "=" f = true)
          (PyStr.split "&" (spec_query u)))).

(** [context(u, p)]: host and port, the path without trailing slash,
    a colon and the lower-cased parameter name. *)
Definition spec_context (u p : string) : option string :=
  parsed ← Urllib.urlparse u;
  Some (Urllib.netloc parsed +:+ PyStr.rstrip "/" (Urllib.path parsed)
        +:+ ":" +:+ PyStr.lower p).

(** [{context(u, p) : u in urls, p in params(u)}], as a list. *)
Definition spec_contexts (urls : list string) : list string :=
  flat_map (fun u => omap (spec_context u) (spec_params u)) urls.

(** ** The rate limiter in binary64 *)

(** [RateLimiter] with its numbers as the interpreter holds them:
    [time.time()] and every result of an operation with it is a
    binary64 float.  The integers the code mixes with them
    ([rate_limit], the initial token count, the literal [1]) are
    written as the floats of the same value, which is exact below
    [2^53]; the module [RateLimiter] above is the idealisation of this
    class over the rationals that the throughput analysis uses. *)
Module RateLimiter64.

Definition of_int (z : Z) : PrimFloat.float :=
  PrimFloat.of_uint63 (Uint63.of_Z z).

Record t := {
  rate_limit : Z;
  tokens : PrimFloat.float;
  last_update : PrimFloat.float;
  _sleep_time : PrimFloat.float
}.

(** [__init__]. *)
Definition init (rate_limit : Z) (now : PrimFloat.float) : t :=
  {| rate_limit := rate_limit;
     tokens := of_int rate_limit;
     last_update := now;
     _sleep_time := if (0 <? rate_limit)%Z
                    then PrimFloat.div PrimFloat.one (of_int rate_limit)
                    else PrimFloat.zero |}.

(** [min(a, b)]: [a] unless [b < a]. *)
Definition py_min (a b : PrimFloat.float) : PrimFloat.float :=
  if PrimFloat.ltb b a then b else a.

(** [acquire], the body under [self.lock]: the limiter after the call
    and the [asyncio.sleep] it made, if any. *)
Definition acquire (now : PrimFloat.float) (rl : t)
  : t * option PrimFloat.float :=
  let time_passed := PrimFloat.sub now (last_update rl) in
  let tokens1 :=
    py_min (of_int (rate_limit rl))
      (PrimFloat.add (tokens rl)
         (PrimFloat.mul time_passed (of_int (rate_limit rl)))) in
  if PrimFloat.ltb tokens1 PrimFloat.one then
    let sleep_time := _sleep_time rl in
    ({| rate_limit := rate_limit rl;
        tokens := PrimFloat.sub PrimFloat.one PrimFloat.one;
        last_update := now; _sleep_time := _sleep_time rl |},
     Some sleep_time)
  else
    ({| rate_limit := rate_limit rl;
        tokens := PrimFloat.sub tokens1 PrimFloat.one;
        last_update := now; _sleep_time := _sleep_time rl |},
     None).

(** [reset]. *)
Definition reset (now : PrimFloat.float) (rl : t) : t :=
  {| rate_limit := rate_limit rl;
     tokens := of_int (rate_limit rl);
     last_update := now;
     _sleep_time := _sleep_time rl |}.

(** The operations as the specification words them: the refill is the
    elapsed time times [R] added to the count and capped at [R]. *)
Definition spec_refill (R : Z) (now : PrimFloat.float) (rl : t)
  : PrimFloat.float :=
  let raw :=
    PrimFloat.add (tokens rl)
      (PrimFloat.mul (PrimFloat.sub now (last_update rl)) (of_int R)) in
  if PrimFloat.ltb raw (of_int R) then raw else of_int R.

End RateLimiter64.

(** The limiters that arise from [RateLimiter(R)] by calls of
    [acquire] and [reset]. *)
Inductive limiter64_of (R : Z) : RateLimiter64.t -> Prop :=
| limiter64_init (now : PrimFloat.float) :
    limiter64_of R (RateLimiter64.init R now)
| limiter64_acquire (now : PrimFloat.float) (rl : RateLimiter64.t) :
    limiter64_of R rl -> limiter64_of R (fst (RateLimiter64.acquire now rl))
| limiter64_reset (now : PrimFloat.float) (rl : RateLimiter64.t) :
    limiter64_of R rl -> limiter64_of R (RateLimiter64.reset now rl).

(** The binary64 float nearest to the fraction [n / d], for [n] and
    [d] below [2^53]: the correctly rounded quotient. *)
Definition float_of_ratio (n d : Z) : PrimFloat.float :=
  PrimFloat.div (RateLimiter64.of_int n) (RateLimiter64.of_int d).

(** * Properties *)

(** ** Alert validator *)

Lemma classify_table (reflected dom_evidence : bool) :
  classify true reflected dom_evidence =
    match reflected, dom_evidence with
    | true, true => "both"
    | true, false => "reflected"
    | false, true => "dom"
    | false, false => "reflected"
    end.
Proof. by destruct reflected, dom_evidence. Qed.

(** The runtime probes are read only when the static patterns already
    matched, so they never change [dom_detected]. *)
Lemma dom_detected_of_static (obs : page_obs) :
  dom_detected_of obs = obs_dom_pattern obs.
Proof.
  unfold dom_detected_of.
  destruct (obs_dom_pattern obs); [|done].
  by destruct (obs_dom_modified obs || obs_script_executed obs).
Qed.

Lemma validate_alert_no_exception (obs : page_obs) (st : scanner) :
  obs_exception obs = None ->
  validate_alert obs st =
    (st, (bool_decide (is_Some (obs_dialog obs)), obs_dialog obs,
          classify (bool_decide (is_Some (obs_dialog obs)))
            (obs_is_reflected obs) (dom_detected_of obs))).
Proof. intros Hexc. unfold validate_alert. by rewrite Hexc. Qed.

(** One trip through the loop body whose browser check reports no
    alert records nothing. *)
Lemma payload_loop_no_alert cfg inject domain param all env i payload st
    status is_reflected potential_dom page obs timestamp :
  env i = GetReturns status is_reflected potential_dom page obs timestamp ->
  obs_dialog obs = None ->
  let st' := payload_loop cfg inject domain param all env i [payload] st in
  results st' = results st /\ json_results st' = json_results st
  /\ notifications st' = notifications st.
Proof.
  intros Henv Hdialog. cbn [payload_loop].
  destruct (st_running st); cbn [negb]; [|done].
  rewrite Henv.
  destruct (status =? 200)%Z; cbn [negb]; [|done].
  destruct (negb is_reflected && negb potential_dom); [done|].
  unfold validate_alert. rewrite Hdialog.
  by destruct (obs_exception obs).
Qed.

(** C1: a call of [validate_alert] that raises no exception returns the
    state unchanged, [alert_triggered] equal to "a dialog fired", and a
    type that depends only on the three booleans: both / reflected /
    dom / reflected (default) when the alert fired; when it did not
    fire, [alert_triggered] is [False] and the worker records no
    finding for that attempt. *)
Theorem validate_alert_classification (obs : page_obs) (st : scanner) :
  obs_exception obs = None ->
  let alert_fired := bool_decide (is_Some (obs_dialog obs)) in
  let reflected := obs_is_reflected obs in
  let dom_evidence := dom_detected_of obs in
  exists xss_type,
    validate_alert obs st = (st, (alert_fired, obs_dialog obs, xss_type))
    /\ xss_type = classify alert_fired reflected dom_evidence
    /\ (alert_fired = true -> reflected = true -> dom_evidence = true ->
        xss_type = "both")
    /\ (alert_fired = true -> reflected = true -> dom_evidence = false ->
        xss_type = "reflected")
    /\ (alert_fired = true -> reflected = false -> dom_evidence = true ->
        xss_type = "dom")
    /\ (alert_fired = true -> reflected = false -> dom_evidence = false ->
        xss_type = "reflected")
    /\ (alert_fired = false ->
        forall cfg inject domain param all env i payload st0
               status is_reflected potential_dom page timestamp,
          env i = GetReturns status is_reflected potential_dom page obs
                    timestamp ->
          let st' :=
            payload_loop cfg inject domain param all env i [payload] st0 in
          results st' = results st0 /\ json_results st' = json_results st0
          /\ notifications st' = notifications st0).
Proof.
  intros Hexc alert_fired reflected dom_evidence.
  exists (classify alert_fired reflected dom_evidence).
  split; [by apply validate_alert_no_exception|].
  split; [done|].
  do 4 (split; [by intros -> -> ->|]).
  intros Hfired cfg inject domain param all env i payload st0
    status is_reflected potential_dom page timestamp Henv.
  eapply payload_loop_no_alert; [exact Henv|].
  subst alert_fired. destruct (obs_dialog obs) as [m|]; [|done].
  exfalso. rewrite bool_decide_eq_false in Hfired. apply Hfired. by eexists.
Qed.

Lemma validate_alert_classification_witness :
  exists xss_type,
    validate_alert (sample_obs true true (Some "1")) (fresh_scanner 1)
    = (fresh_scanner 1, (true, Some "1", xss_type)) /\ xss_type = "both".
Proof.
  destruct (validate_alert_classification
              (sample_obs true true (Some "1")) (fresh_scanner 1) eq_refl)
    as (ty & Hrun & _ & Hboth & _).
  exists ty. split; [exact Hrun|].
  apply Hboth; reflexivity.
Defined.

(** ** Result sink *)

(** Whatever the validator returned, the worker hands one of its two
    display labels to [record_vulnerability]: no finding it records
    carries the type [both]. *)
Lemma payload_loop_recorded_types cfg inject domain param all env todo :
  forall i st,
    Forall (fun f => f_type f = "DOM Based" \/ f_type f = "Reflected")
           (json_results st) ->
    Forall (fun f => f_type f = "DOM Based" \/ f_type f = "Reflected")
           (json_results
              (payload_loop cfg inject domain param all env i todo st)).
Proof.
  induction todo as [|payload rest IH]; intros i st Hst; [done|].
  cbn [payload_loop].
  destruct (st_running st); cbn [negb]; [|done].
  destruct (env i) as [exc [|]|status r d page obs ts].
  - by apply IH.
  - done.
  - destruct (status =? 200)%Z; cbn [negb]; [|by apply IH].
    destruct (negb r && negb d); [by apply IH|].
    unfold validate_alert.
    destruct (obs_exception obs) as [exc|]; [by apply IH|].
    destruct (bool_decide (is_Some (obs_dialog obs))); [|by apply IH].
    set (label := if String.eqb _ "dom" then "DOM Based" else "Reflected").
    assert (Hlabel : label = "DOM Based" \/ label = "Reflected")
      by (subst label; destruct (String.eqb _ "dom"); auto).
    assert (Hrec : Forall
              (fun f => f_type f = "DOM Based" \/ f_type f = "Reflected")
              (json_results
                 (record_vulnerability cfg ts domain param payload
                    (inject payload) (obs_dialog obs) label
                    (set_stats incr_successful_payloads
                       (log_pool (PoolGet page)
                          (set_stats incr_payloads_tested (take_token st))))))).
    { cbn. destruct (json_output cfg); [|done].
      apply Forall_app. split; [done|]. by apply Forall_singleton. }
    destruct (PyStr.index payload all); [done|by apply IH].
Qed.

(** C2: on a task whose validation returns [xss_type = 'both'] (payload
    reflected, DOM evidence, alert fired) the recorded finding does not
    carry [both]: the worker passes its display label, and the finding
    has the type [Reflected]. *)
Theorem both_recorded_as_reflected :
  let obs := sample_obs true true (Some "1") in
  let env := fun _ : nat => GetReturns 200 true true 0 obs sample_time in
  snd (validate_alert obs (fresh_scanner 1)) = (true, Some "1", "both")
  /\ option_map json_results
       (process_parameter_payloads json_cfg sample_inject "https://a/x?q=1"
          "q" ["<script>alert(1)</script>"] env (fresh_scanner 1))
     = Some [ {| f_timestamp := sample_time; f_domain := "a";
                 f_parameter := "q";
                 f_payload := "<script>alert(1)</script>";
                 f_url := "https://a/x?q=<script>alert(1)</script>";
                 f_alert_text := Some "1";
                 f_type := "Reflected" |} ].
Proof. split; reflexivity. Qed.

(** ** Worker: one payload attempt *)

(** C5: an attempt whose GET returns a status other than 200 records no
    finding, counts one more tested payload, borrows no page, advances
    the bar by one and goes on with the next payload; the counter
    [failed_payloads] keeps its value. *)
Theorem non_200_attempt cfg inject domain param all env i payload rest st
    status is_reflected potential_dom page obs timestamp :
  st_running st = true ->
  env i = GetReturns status is_reflected potential_dom page obs timestamp ->
  status <> 200%Z ->
  exists st1,
    payload_loop cfg inject domain param all env i (payload :: rest) st
    = payload_loop cfg inject domain param all env (S i) rest st1
    /\ results st1 = results st
    /\ json_results st1 = json_results st
    /\ notifications st1 = notifications st
    /\ payloads_tested (st_stats st1) = S (payloads_tested (st_stats st))
    /\ failed_payloads (st_stats st1) = failed_payloads (st_stats st)
    /\ pool_log st1 = pool_log st
    /\ (bar_truthy (progress_bar st) = true ->
        n (progress_bar st1) = (n (progress_bar st) + 1)%nat).
Proof.
  intros Hrun Henv Hstatus.
  exists (advance 1 (set_stats incr_payloads_tested (take_token st))).
  split.
  - cbn [payload_loop]. rewrite Hrun, Henv. cbn [negb].
    destruct (Z.eqb_spec status 200) as [->|_]; [done|reflexivity].
  - repeat split. cbn. by intros ->.
Qed.

Lemma non_200_attempt_witness :
  let env := fun _ : nat =>
    GetReturns 404 false false 0 (sample_obs false false None) sample_time in
  exists st1,
    payload_loop json_cfg sample_inject "a" "q" ["p1"; "p2"] env 0
      ["p1"; "p2"] (fresh_scanner 2)
    = payload_loop json_cfg sample_inject "a" "q" ["p1"; "p2"] env 1
        ["p2"] st1
    /\ payloads_tested (st_stats st1) = 1%nat
    /\ failed_payloads (st_stats st1) = 0%nat
    /\ pool_log st1 = [].
Proof.
  intros env.
  destruct (non_200_attempt json_cfg sample_inject "a" "q" ["p1"; "p2"] env
              0 "p1" ["p2"] (fresh_scanner 2) 404 false false 0
              (sample_obs false false None) sample_time
              eq_refl eq_refl ltac:(discriminate))
    as (st1 & Hloop & _ & _ & _ & Htested & Hfailed & Hpool & _).
  exists st1. repeat split; assumption.
Defined.

(** ** Worker: the whole loop *)

Lemma index_app_middle (pre : list string) (x : string) (post : list string) :
  NoDup (pre ++ x :: post) ->
  PyStr.index x (pre ++ x :: post) = Some (length pre).
Proof.
  induction pre as [|y pre IH]; intros Hnd; cbn.
  - by rewrite String.eqb_refl.
  - apply NoDup_cons in Hnd as [Hy Hnd].
    destruct (String.eqb_spec y x) as [->|_].
    + exfalso. apply Hy. set_solver.
    + by rewrite (IH Hnd).
Qed.

Lemma validate_alert_frame (obs : page_obs) (st : scanner) :
  let st' := fst (validate_alert obs st) in
  st_running st' = st_running st /\ progress_bar st' = progress_bar st
  /\ payloads_tested (st_stats st') = payloads_tested (st_stats st).
Proof. unfold validate_alert. by destruct (obs_exception obs). Qed.

Lemma bar_truthy_update (k : nat) (bar : tqdm) :
  bar_truthy (update k bar) = bar_truthy bar.
Proof. reflexivity. Qed.

Ltac frame Hbar :=
  cbn -[bar_truthy]; rewrite ?Hbar; cbn -[bar_truthy];
  rewrite ?bar_truthy_update; try done; try lia.

(** With distinct payloads, a running scanner, a live progress bar and
    no exception that escapes the per-payload handler, the loop
    advances the bar by the number of payloads still to do and stops
    after the first confirmed alert. *)
Lemma payload_loop_counts cfg inject domain param env (todo : list string) :
  forall (done : list string) (st : scanner),
    NoDup (done ++ todo) ->
    st_running st = true ->
    bar_truthy (progress_bar st) = true ->
    (forall j, (length done <= j < length (done ++ todo))%nat ->
               escapes (env j) = false) ->
    let st' := payload_loop cfg inject domain param (done ++ todo) env
                 (length done) todo st in
    n (progress_bar st') = (n (progress_bar st) + length todo)%nat
    /\ payloads_tested (st_stats st')
       = (payloads_tested (st_stats st) + attempted env (length done) todo)%nat.
Proof.
  induction todo as [|payload rest IH]; intros done st Hnd Hrun Hbar Hesc.
  { cbn. lia. }
  assert (Hnext : forall a st1,
    env (length done) = a ->
    st_running st1 = true ->
    bar_truthy (progress_bar st1) = true ->
    n (progress_bar st1) = (n (progress_bar st) + 1)%nat ->
    payloads_tested (st_stats st1) = S (payloads_tested (st_stats st)) ->
    confirms a = false ->
    let st' := payload_loop cfg inject domain param (done ++ payload :: rest)
                 env (S (length done)) rest st1 in
    n (progress_bar st') = (n (progress_bar st) + length (payload :: rest))%nat
    /\ payloads_tested (st_stats st')
       = (payloads_tested (st_stats st)
          + attempted env (length done) (payload :: rest))%nat).
  { intros a st1 Ha Hrun1 Hbar1 Hn1 Ht1 Hconf. subst a.
    specialize (IH (done ++ [payload]) st1).
    rewrite <- !app_assoc, length_app in IH. cbn [app length] in IH.
    rewrite Nat.add_1_r in IH.
    destruct IH as [IHn IHt]; [done..| |].
    { intros j Hj. apply Hesc. rewrite length_app in *. cbn in *. lia. }
    cbn [attempted length]. rewrite Hconf. cbn zeta. lia. }
  cbn [payload_loop]. rewrite Hrun. cbn [negb].
  pose proof (Hesc (length done)) as Hesc0.
  rewrite length_app in Hesc0. cbn [length] in Hesc0.
  specialize (Hesc0 ltac:(lia)).
  destruct (env (length done)) as [exc log_ok|status r d page obs ts] eqn:Henv.
  - cbn in Hesc0. destruct log_ok; [|done].
    eapply Hnext; [reflexivity|..]; frame Hbar.
  - destruct (Z.eqb_spec status 200) as [->|Hstatus]; cbn [negb].
    2:{ eapply Hnext; [reflexivity|..]; frame Hbar. }
    destruct (negb r && negb d) eqn:Hhint.
    { eapply Hnext; [reflexivity|..]; frame Hbar. by destruct r, d. }
    unfold validate_alert.
    destruct (obs_exception obs) as [exc|] eqn:Hexc.
    { eapply Hnext; [reflexivity|..]; frame Hbar.
      rewrite Hexc, bool_decide_eq_false_2 by done.
      by rewrite andb_false_r. }
    destruct (bool_decide (is_Some (obs_dialog obs))) eqn:Hdialog.
    2:{ eapply Hnext; [reflexivity|..]; frame Hbar.
        by rewrite Hdialog, andb_false_r. }
    rewrite (index_app_middle done payload rest Hnd).
    cbn [attempted]. rewrite Henv. cbn [confirms].
    rewrite Hexc, Hdialog.
    assert (r || d = true) as -> by (by destruct r, d).
    rewrite bool_decide_eq_true_2 by done.
    frame Hbar. rewrite length_app. cbn [length]. lia.
Qed.

Lemma attempted_first_hit env (todo : list string) :
  forall i k,
    (k < length todo)%nat ->
    confirms (env (i + k)%nat) = true ->
    (forall j, (j < k)%nat -> confirms (env (i + j)%nat) = false) ->
    attempted env i todo = S k.
Proof.
  induction todo as [|p rest IH]; intros i k Hk Hhit Hbefore; cbn in *; [lia|].
  destruct k as [|k].
  - rewrite Nat.add_0_r in Hhit. by rewrite Hhit.
  - pose proof (Hbefore 0%nat ltac:(lia)) as H0.
    rewrite Nat.add_0_r in H0. rewrite H0.
    f_equal. apply IH; [lia|by rewrite Nat.add_succ_comm|].
    intros j Hj. rewrite Nat.add_succ_comm. apply Hbefore. lia.
Qed.

Lemma attempted_no_hit env (todo : list string) :
  forall i,
    (forall j, (j < length todo)%nat -> confirms (env (i + j)%nat) = false) ->
    attempted env i todo = length todo.
Proof.
  induction todo as [|p rest IH]; intros i Hnone; cbn in *; [done|].
  pose proof (Hnone 0%nat ltac:(lia)) as H0.
  rewrite Nat.add_0_r in H0. rewrite H0.
  f_equal. apply IH. intros j Hj. rewrite Nat.add_succ_comm. apply Hnone. lia.
Qed.

(** X5: the worker on the paths where every exception is dealt with by
    the per-payload handler: with [N] distinct payloads it issues
    progress [N]; it attempts [k] payloads when the first confirmed
    alert is at the 1-based position [k], and all [N] when there is
    none. *)
Lemma worker_attempts_and_progress cfg inject url param payloads env st parsed :
  Urllib.urlparse url = Some parsed ->
  NoDup payloads ->
  st_running st = true ->
  bar_truthy (progress_bar st) = true ->
  (forall j, (j < length payloads)%nat -> escapes (env j) = false) ->
  exists st',
    process_parameter_payloads cfg inject url param payloads env st = Some st'
    /\ progress st st' = length payloads
    /\ (forall k, (k < length payloads)%nat ->
                  confirms (env k) = true ->
                  (forall j, (j < k)%nat -> confirms (env j) = false) ->
                  attempts st st' = S k)
    /\ ((forall j, (j < length payloads)%nat -> confirms (env j) = false) ->
        attempts st st' = length payloads).
Proof.
  intros Hparse Hnd Hrun Hbar Hesc.
  unfold process_parameter_payloads. rewrite Hparse. cbn [mbind option_bind].
  eexists. split; [reflexivity|].
  destruct (payload_loop_counts cfg inject (Urllib.netloc parsed) param env
              payloads [] st Hnd Hrun Hbar) as [Hn Ht].
  { intros j Hj. apply Hesc. cbn in Hj. lia. }
  cbn [app length] in Hn, Ht. unfold progress, attempts.
  rewrite Hn, Ht. split; [lia|]. split.
  - intros k Hk Hhit Hbefore.
    rewrite (attempted_first_hit env payloads 0 k Hk Hhit Hbefore). lia.
  - intros Hnone. rewrite (attempted_no_hit env payloads 0 Hnone). lia.
Qed.

(** C4: with three payloads, a 404 on the first and, on the second, an
    exception whose logging fails, the worker attempts two payloads,
    confirms no alert, and issues progress 1 + 1 + 3 = 5 instead of 3:
    the outer handler adds the whole payload count. *)
Theorem outer_handler_overcounts :
  let payloads := ["p1"; "p2"; "p3"] in
  let st := fresh_scanner 3 in
  NoDup payloads
  /\ (forall j, confirms (env_log_failure j) = false)
  /\ exists st',
       process_parameter_payloads json_cfg sample_inject "https://a/x?q=1"
         "q" payloads env_log_failure st = Some st'
       /\ attempts st st' = 2%nat
       /\ progress st st' = 5%nat
       /\ length payloads = 3%nat.
Proof.
  cbn zeta. split; [|split].
  - by apply (bool_decide_unpack _).
  - by intros [|j].
  - eexists. split; [reflexivity|]. by vm_compute.
Qed.

(** ** Notification adapter *)

Lemma append_cons (a : ascii) (s t : string) :
  String a s +:+ t = String a (s +:+ t).
Proof. reflexivity. Qed.

Lemma append_nil (t : string) : EmptyString +:+ t = t.
Proof. reflexivity. Qed.

Lemma append_assoc (s t u : string) : (s +:+ t) +:+ u = s +:+ (t +:+ u).
Proof.
  induction s as [|a s IH]; [reflexivity|].
  by rewrite !append_cons, IH.
Qed.

Lemma replace_app (c : ascii) (r s1 s2 : string) :
  PyStr.replace c r (s1 +:+ s2) = PyStr.replace c r s1 +:+ PyStr.replace c r s2.
Proof.
  induction s1 as [|a s1 IH]; [reflexivity|].
  rewrite append_cons. cbn [PyStr.replace].
  destruct (Ascii.eqb a c).
  - by rewrite IH, append_assoc.
  - by rewrite IH, append_cons.
Qed.

(** X6: on a message without angle brackets the chain of replacements
    is the standard escaping. *)
Lemma escape_message_without_brackets (s : string) :
  PyStr.contains "<" s = false ->
  PyStr.contains ">" s = false ->
  Telegram.escape_message s = Telegram.html_escape_spec s.
Proof.
  unfold Telegram.escape_message.
  induction s as [|a s IH]; intros Hlt Hgt; [reflexivity|].
  cbn [PyStr.contains] in Hlt, Hgt.
  cbn [PyStr.replace Telegram.html_escape_spec]. unfold Telegram.html_entity.
  destruct (Ascii.eqb a "<") eqn:E1; [done|].
  destruct (Ascii.eqb a ">") eqn:E2; [done|].
  specialize (IH Hlt Hgt).
  cbn [PyStr.replace]. rewrite E2. cbn [PyStr.replace].
  destruct (Ascii.eqb a "&") eqn:E3.
  { rewrite !replace_app, IH. reflexivity. }
  cbn [PyStr.replace].
  destruct (Ascii.eqb a Telegram.quot) eqn:E4.
  { rewrite !replace_app, IH. reflexivity. }
  cbn [PyStr.replace].
  destruct (Ascii.eqb a Telegram.apos) eqn:E5.
  { by rewrite IH. }
  by rewrite IH, append_cons, append_nil.
Qed.

(** C9: the text posted for the message [<b>] is not its standard HTML
    escaping [&lt;b&gt;]: the ampersands written for the two angle
    brackets are escaped again by the later replacement of [&]. *)
Theorem telegram_text_escapes_twice :
  option_map Telegram.post_text
    (Telegram.send_telegram_notification telegram_on "<b>")
  = Some "&amp;lt;b&amp;gt;"
  /\ Telegram.html_escape_spec "<b>" = "&lt;b&gt;"
  /\ Telegram.escape_message "<b>" <> Telegram.html_escape_spec "<b>".
Proof. split; [reflexivity|]. split; [reflexivity|]. discriminate. Qed.

(** ** Rate limiter *)

Section RateLimiterFacts.

Import RateLimiter.
Local Open Scope Q_scope.

Variable now : Q.
Variable rl : RateLimiter.t.

(** The refill never exceeds the capacity. *)
Lemma refilled_le_capacity : refilled now rl <= inject_Z (rate_limit rl).
Proof. unfold refilled. apply Q.le_min_l. Qed.

(** Below the cap the refill is the elapsed time times the rate. *)
Lemma refilled_below_cap :
  tokens rl + (now - last_update rl) * inject_Z (rate_limit rl)
    <= inject_Z (rate_limit rl) ->
  refilled now rl
  == tokens rl + (now - last_update rl) * inject_Z (rate_limit rl).
Proof. intros Hle. unfold refilled. by apply Q.min_r. Qed.

(** With a rate of at least one the token count is never negative
    after [acquire], and never above the capacity. *)
Lemma acquire_tokens_bounds :
  (1 <= rate_limit rl)%Z ->
  0 <= tokens (fst (acquire now rl)) <= inject_Z (rate_limit rl).
Proof.
  intros HR. unfold acquire.
  assert (HRq : 1 <= inject_Z (rate_limit rl)).
  { rewrite <- (Zle_Qle 1). exact HR. }
  fold (refilled now rl). pose proof refilled_le_capacity as Hcap.
  destruct (Qlt_le_dec (refilled now rl) 1) as [Hlt|Hge]; cbn [fst tokens].
  - lra.
  - lra.
Qed.

End RateLimiterFacts.


Lemma limiter64_params (R : Z) (rl : RateLimiter64.t) :
  limiter64_of R rl ->
  RateLimiter64.rate_limit rl = R
  /\ RateLimiter64._sleep_time rl
     = (if (0 <? R)%Z
        then PrimFloat.div PrimFloat.one (RateLimiter64.of_int R)
        else PrimFloat.zero).
Proof.
  induction 1 as [now|now rl Hrl [IHr IHs]|now rl Hrl [IHr IHs]].
  - done.
  - unfold RateLimiter64.acquire.
    by destruct (PrimFloat.ltb _ PrimFloat.one).
  - done.
Qed.

(** C6: on a limiter made for a rate [R >= 1], in the binary64
    arithmetic of the interpreter, [acquire] (one atomic step under the
    lock) stores the clock reading and refills the count by the
    elapsed time times [R], capped at [R]; with less than one token
    after the refill it sleeps the quotient [1.0 / R] and leaves
    [1 - 1] tokens, otherwise it makes no sleep and leaves the refilled
    count minus one.  [reset] puts the count back to [R] and stores
    the clock reading. *)
Theorem rate_limiter_operations (R : Z) (rl : RateLimiter64.t)
    (now : PrimFloat.float) :
  (1 <= R < 2 ^ 53)%Z ->
  limiter64_of R rl ->
  let refill := RateLimiter64.spec_refill R now rl in
  let after := fst (RateLimiter64.acquire now rl) in
  let slept := snd (RateLimiter64.acquire now rl) in
  RateLimiter64.last_update after = now
  /\ (PrimFloat.ltb refill PrimFloat.one = true ->
      slept = Some (PrimFloat.div PrimFloat.one (RateLimiter64.of_int R))
      /\ RateLimiter64.tokens after
         = PrimFloat.sub PrimFloat.one PrimFloat.one)
  /\ (PrimFloat.ltb refill PrimFloat.one = false ->
      slept = None
      /\ RateLimiter64.tokens after = PrimFloat.sub refill PrimFloat.one)
  /\ limiter64_of R after
  /\ RateLimiter64.tokens (RateLimiter64.reset now rl)
     = RateLimiter64.of_int R
  /\ RateLimiter64.last_update (RateLimiter64.reset now rl) = now
  /\ limiter64_of R (RateLimiter64.reset now rl).
Proof.
  intros HR Hrl refill after slept.
  destruct (limiter64_params R rl Hrl) as [Hrate Hsleep].
  assert ((0 <? R)%Z = true) as HRpos by lia.
  rewrite HRpos in Hsleep.
  assert (Hafter : limiter64_of R after) by (by apply limiter64_acquire).
  assert (Hreset : limiter64_of R (RateLimiter64.reset now rl))
    by (by apply limiter64_reset).
  subst refill after slept.
  unfold RateLimiter64.spec_refill, RateLimiter64.acquire,
    RateLimiter64.py_min in *.
  rewrite Hrate in *.
  set (raw := PrimFloat.add (RateLimiter64.tokens rl)
                (PrimFloat.mul
                   (PrimFloat.sub now (RateLimiter64.last_update rl))
                   (RateLimiter64.of_int R))) in *.
  set (refill := if PrimFloat.ltb raw (RateLimiter64.of_int R)
                 then raw else RateLimiter64.of_int R) in *.
  destruct (PrimFloat.ltb refill PrimFloat.one) eqn:Hlt;
    cbn [fst snd RateLimiter64.last_update RateLimiter64.tokens
         RateLimiter64.reset] in *.
  - split; [done|]. split; [intros _; by rewrite Hsleep|].
    split; [done|]. split; [done|]. split; [by rewrite Hrate|done].
  - split; [done|]. split; [done|]. split; [done|].
    split; [done|]. split; [by rewrite Hrate|done].
Qed.

Lemma rate_limiter_operations_witness :
  let rl := RateLimiter64.init 12 PrimFloat.zero in
  let now := float_of_ratio 1 2 in
  snd (RateLimiter64.acquire now rl) = None
  /\ RateLimiter64.tokens (fst (RateLimiter64.acquire now rl))
     = RateLimiter64.of_int 11
  /\ RateLimiter64.tokens (RateLimiter64.reset now rl)
     = RateLimiter64.of_int 12.
Proof.
  intros rl now.
  destruct (rate_limiter_operations 12 rl now ltac:(lia)
              (limiter64_init 12 PrimFloat.zero))
    as (_ & _ & Hplenty & _ & Hreset & _).
  destruct (Hplenty eq_refl) as [Hnone Htokens].
  split; [exact Hnone|]. split; [|exact Hreset].
  rewrite Htokens. reflexivity.
Defined.

(** The model rounds as the interpreter does: for [R = 3] the float
    nearest to [1/3] is below [1/3], yet its product with [3.0] is
    [1.0], so a limiter left empty at time 0 grants the call made at
    that reading of the clock. *)
Example acquire_at_rounding_boundary :
  let empty := fst (RateLimiter64.acquire PrimFloat.zero
                 (fst (RateLimiter64.acquire PrimFloat.zero
                    (fst (RateLimiter64.acquire PrimFloat.zero
                       (RateLimiter64.init 3 PrimFloat.zero)))))) in
  RateLimiter64.tokens empty = PrimFloat.zero
  /\ snd (RateLimiter64.acquire (float_of_ratio 1 3) empty) = None.
Proof. split; reflexivity. Qed.

(** C7: with [R = 1] and callers that keep the lock busy, ten calls of
    [acquire] complete in the five seconds from time 1 on, more than
    the bound [R * T + R = 6]: the time slept is refilled again at the
    next call, so two calls complete for every sleep. *)
Theorem saturated_limiter_exceeds_bound :
  let R := 1%Z in
  let T := 5%Q in
  let done :=
    RateLimiter.serve saturating_calls 0 (RateLimiter.init R 0) in
  RateLimiter.completions_within 1 T done = 10%nat
  /\ (inject_Z R * T + inject_Z R == 6)%Q
  /\ (inject_Z R * T + inject_Z R
      < inject_Z (Z.of_nat (RateLimiter.completions_within 1 T done)))%Q.
Proof. by vm_compute. Qed.

(** ** Orchestrator: each parameter context once *)

Lemma should_test_parameter_spec (url param : string) (tested : gset string) :
  should_test_parameter url param tested
  = match get_parameter_context url param with
    | Some c => Some (bool_decide (c ∉ tested), {[c]} ∪ tested)
    | None => None
    end.
Proof.
  unfold should_test_parameter.
  destruct (get_parameter_context url param) as [c|]; [|done].
  cbn. destruct (decide (c ∈ tested)) as [Hin|Hnin].
  - rewrite bool_decide_eq_false_2 by (intros H; by apply H).
    do 2 f_equal. set_solver.
  - by rewrite bool_decide_eq_true_2.
Qed.

(** Whatever the order in which callers reach the lock, [True] is
    answered at most once per context, and never for a context that
    was in the set before. *)
Lemma granted_once (calls : list (string * string)) :
  forall tested : gset string,
    NoDup (granted calls tested)
    /\ (forall c, c ∈ granted calls tested -> c ∉ tested).
Proof.
  induction calls as [|[url param] rest IH]; intros tested; cbn [granted].
  { split; [constructor|set_solver]. }
  rewrite should_test_parameter_spec.
  destruct (get_parameter_context url param) as [c|]; [|by apply IH].
  destruct (decide (c ∈ tested)) as [Hin|Hnin].
  - rewrite bool_decide_eq_false_2 by (intros H; by apply H).
    destruct (IH ({[c]} ∪ tested)) as [Hnd Hfresh].
    split; [done|]. intros c' Hc'. specialize (Hfresh c' Hc'). set_solver.
  - rewrite bool_decide_eq_true_2 by done. cbn [from_option app].
    destruct (IH ({[c]} ∪ tested)) as [Hnd Hfresh].
    split.
    + apply NoDup_cons. split; [|done].
      intros Hc. specialize (Hfresh c Hc). set_solver.
    + intros c' Hc'. apply elem_of_cons in Hc' as [->|Hc']; [done|].
      specialize (Hfresh c' Hc'). set_solver.
Qed.

Lemma spawn_params_spec (url : string) (parsed : Urllib.ParseResult)
    (params : list string) :
  Urllib.urlparse url = Some parsed ->
  forall st,
    let st' := fst (spawn_params url params st) in
    running st' = running st
    /\ tested_parameters st'
       = tested_parameters st
         ∪ list_to_set (omap (get_parameter_context url) params)
    /\ (one_worker_per_context st -> one_worker_per_context st').
Proof.
  intros Hparse.
  induction params as [|param rest IH]; intros st; cbn [spawn_params].
  { cbn. split; [done|]. split; [set_solver|done]. }
  rewrite should_test_parameter_spec. cbn [omap list_omap].
  assert (Hctx : exists c, get_parameter_context url param = Some c).
  { unfold get_parameter_context. rewrite Hparse. by eexists. }
  destruct Hctx as [c Hc]. rewrite Hc.
  destruct (decide (c ∈ tested_parameters st)) as [Hin|Hnin].
  - rewrite bool_decide_eq_false_2 by (intros H; by apply H).
    destruct (IH st) as (Hrun & Htested & Hinv).
    split; [done|]. split; [|done].
    rewrite Htested. set_solver.
  - rewrite bool_decide_eq_true_2 by done.
    match goal with
    | |- context [spawn_params url rest ?s] =>
        destruct (IH s) as (Hrun & Htested & Hinv)
    end.
    split; [done|]. split.
    + rewrite Htested. cbn. set_solver.
    + intros [Hnd Hcover]. apply Hinv.
      unfold one_worker_per_context, task_contexts in *.
      cbn [tasks tested_parameters].
      rewrite omap_app. cbn [omap list_omap fst snd]. rewrite Hc.
      split.
      * apply NoDup_app. split; [done|].
        split; [|apply NoDup_singleton].
        intros c' Hc' Hc''. apply list_elem_of_singleton in Hc'' as ->.
        apply Hnin. rewrite Hcover. by apply elem_of_list_to_set.
      * rewrite list_to_set_app_L, Hcover. cbn [list_to_set foldr].
        rewrite (right_id_L ∅ (∪)). apply (comm_L (∪)).
Qed.

Lemma contexts_of_cons (url : string) (urls : list string) :
  contexts_of (url :: urls)
  = match url_params url with
    | Some params => omap (get_parameter_context url) params
    | None => []
    end ++ contexts_of urls.
Proof. reflexivity. Qed.

Lemma contexts_of_app (l1 l2 : list string) :
  contexts_of (l1 ++ l2) = contexts_of l1 ++ contexts_of l2.
Proof. unfold contexts_of. apply flat_map_app. Qed.

Lemma process_batch_spec (batch_urls : list string) :
  forall st,
    running st = true ->
    let st' := process_batch batch_urls st in
    running st' = true
    /\ tested_parameters st'
       = tested_parameters st ∪ list_to_set (contexts_of batch_urls)
    /\ (one_worker_per_context st -> one_worker_per_context st').
Proof.
  induction batch_urls as [|url rest IH]; intros st Hrun; cbn [process_batch].
  { cbn. split; [done|]. split; [set_solver|done]. }
  rewrite Hrun. cbn [negb]. rewrite contexts_of_cons.
  unfold url_params.
  destruct (Urllib.urlparse url) as [parsed|] eqn:Hparse; cbn [mbind option_bind].
  - destruct (spawn_params_spec url parsed
                (Urllib.parse_qs_keys (Urllib.query parsed)) Hparse st)
      as (Hrun1 & Htested1 & Hinv1).
    rewrite Hrun in Hrun1.
    destruct (IH _ Hrun1) as (Hrun2 & Htested2 & Hinv2).
    split; [done|]. split; [|by auto].
    rewrite Htested2, Htested1, list_to_set_app_L. set_solver.
  - destruct (IH st Hrun) as (Hrun2 & Htested2 & Hinv2).
    split; [done|]. split; [|done].
    by rewrite Htested2.
Qed.

Lemma run_batches_spec (bs : list (list string)) :
  forall st,
    running st = true ->
    let st' := run_batches bs st in
    running st' = true
    /\ tested_parameters st'
       = tested_parameters st ∪ list_to_set (contexts_of (concat bs))
    /\ (one_worker_per_context st -> one_worker_per_context st').
Proof.
  induction bs as [|b rest IH]; intros st Hrun; cbn [run_batches concat].
  { cbn. split; [done|]. split; [set_solver|done]. }
  rewrite Hrun. cbn [negb].
  destruct (process_batch_spec b st Hrun) as (Hrun1 & Htested1 & Hinv1).
  destruct (IH _ Hrun1) as (Hrun2 & Htested2 & Hinv2).
  split; [done|]. split; [|by auto].
  rewrite Htested2, Htested1, contexts_of_app, list_to_set_app_L. set_solver.
Qed.

(** The batches of [run] are the URL list cut into consecutive pieces. *)
Lemma concat_batches (fuel : nat) :
  forall urls : list string,
    (length urls <= fuel)%nat -> concat (batches fuel urls) = urls.
Proof.
  induction fuel as [|fuel IH]; intros urls Hlen.
  { destruct urls; [done|cbn in Hlen; lia]. }
  destruct urls as [|url urls]; [done|].
  cbn [batches concat].
  rewrite IH.
  - apply take_drop.
  - rewrite length_drop. cbn in *. unfold URLS_BATCH_SIZE. lia.
Qed.

Lemma run_spec (urls : list string) (st : orchestrator) :
  running st = true ->
  let st' := run urls st in
  tested_parameters st'
  = tested_parameters st ∪ list_to_set (contexts_of urls)
  /\ (one_worker_per_context st -> one_worker_per_context st').
Proof.
  intros Hrun. unfold run.
  destruct (run_batches_spec (batches (length urls) urls) st Hrun)
    as (_ & Htested & Hinv).
  by rewrite concat_batches in Htested.
Qed.

(** C3: the set of contexts tested is not the set of the contexts
    [context(u, p)] of the deduplicated URLs and their parameters: the
    orchestrator reads the parameters off [urlparse(url).query], which
    is empty when the parameters follow a fragment, so a URL that
    [validate_url] accepts and [load_files] keeps and counts with one
    parameter gets no worker and no context is tested for it, while an
    ordinary URL is tested in the context the claim gives.  What the
    claim says of [should_test_parameter] holds: for every list of
    URLs (written in ASCII, without square bracket or percent-escape)
    the workers created carry pairwise distinct contexts, which make
    up the tested set, and in any sequence of calls for such URLs and
    ASCII names, on any shared set, [True] is answered at most once
    per context. *)
Theorem fragment_parameters_get_no_worker :
  (let u := "http://testhtml5.vulnweb.com/#/redir?url=" in
   validate_url u = true
   /\ valid_urls (load_urls [u]) = [u]
   /\ counted_parameters u = Some ["url"]
   /\ spec_params u = ["url"]
   /\ spec_contexts (valid_urls (load_urls [u]))
      = ["testhtml5.vulnweb.com:url"]
   /\ url_params u = Some []
   /\ scan [u] = orchestrator_init)
  /\ (let u := "https://a:8080/x/?Q=1" in
      spec_contexts (valid_urls (load_urls [u])) = ["a:8080/x:q"]
      /\ tasks (scan [u]) = [(u, "Q")]
      /\ task_contexts (scan [u]) = ["a:8080/x:q"])
  /\ (forall all_urls : list string,
        Forall plain_url all_urls ->
        NoDup (task_contexts (scan all_urls))
        /\ list_to_set (task_contexts (scan all_urls))
           = tested_parameters (scan all_urls))
  /\ (forall (calls : list (string * string)) (tested : gset string),
        Forall (fun call => plain_url (fst call) /\ ascii_text (snd call))
               calls ->
        NoDup (granted calls tested)
        /\ (forall c, c ∈ granted calls tested -> c ∉ tested)).
Proof.
  split; [by vm_compute|]. split; [by vm_compute|].
  split; [|intros calls tested _; apply granted_once].
  intros all_urls _. unfold scan.
  destruct (run_spec (valid_urls (load_urls all_urls)) orchestrator_init
              eq_refl) as [_ Hinv].
  destruct Hinv as [Hnd Hcover].
  { split; [constructor|reflexivity]. }
  by split.
Qed.

(** ** Strings: searching and cutting *)

Lemma contains_app (c : ascii) (s t : string) :
  PyStr.contains c (s +:+ t) = PyStr.contains c s || PyStr.contains c t.
Proof.
  induction s as [|a s IH]; [reflexivity|].
  rewrite append_cons. cbn [PyStr.contains].
  by destruct (Ascii.eqb a c).
Qed.

Lemma all_chars_app (p : ascii -> bool) (s t : string) :
  Urllib.all_chars p (s +:+ t) = Urllib.all_chars p s && Urllib.all_chars p t.
Proof.
  induction s as [|a s IH]; [reflexivity|].
  rewrite append_cons. cbn [Urllib.all_chars].
  by rewrite IH, andb_assoc.
Qed.



Lemma append_empty_r (s : string) : s +:+ EmptyString = s.
Proof. induction s as [|a s IH]; [reflexivity|]. by rewrite append_cons, IH. Qed.

Lemma break_at_app (c : ascii) (s t : string) :
  lacks c s -> Urllib.break_at c (s +:+ String c t) = Some (s, t).
Proof.
  unfold lacks. induction s as [|a s IH]; intros Hs.
  - rewrite append_nil. cbn. by rewrite Ascii.eqb_refl.
  - rewrite append_cons. cbn [PyStr.contains Urllib.break_at] in *.
    destruct (Ascii.eqb a c); [done|]. by rewrite IH.
Qed.

Lemma break_at_lacks (c : ascii) (s : string) :
  lacks c s -> Urllib.break_at c s = None.
Proof.
  unfold lacks. induction s as [|a s IH]; [done|].
  cbn [PyStr.contains Urllib.break_at].
  destruct (Ascii.eqb a c); [done|]. intros Hs. by rewrite IH.
Qed.


Lemma cut_app (c : ascii) (s t : string) :
  lacks c s -> Urllib.cut c (s +:+ String c t) = (s, t).
Proof. intros Hs. unfold Urllib.cut. by rewrite break_at_app. Qed.

Lemma cut_lacks (c : ascii) (s : string) :
  lacks c s -> Urllib.cut c s = (s, EmptyString).
Proof. intros Hs. unfold Urllib.cut. by rewrite break_at_lacks. Qed.


Lemma span_app (p : ascii -> bool) (l r : string) :
  Urllib.all_chars p l = true ->
  (r = EmptyString \/ exists a r', r = String a r' /\ p a = false) ->
  Urllib.span p (l +:+ r) = (l, r).
Proof.
  intros Hl Hr. induction l as [|a l IH].
  - rewrite append_nil. destruct Hr as [->|(a & r' & -> & Ha)]; [done|].
    cbn. by rewrite Ha.
  - cbn [Urllib.all_chars] in Hl. apply andb_true_iff in Hl as [Ha Hl].
    rewrite append_cons. cbn [Urllib.span]. by rewrite Ha, IH.
Qed.


(** ** Strings: splitting and joining *)

Lemma split_nonempty (sep : ascii) (s : string) : PyStr.split sep s <> [].
Proof.
  destruct s as [|a s]; [done|]. cbn.
  destruct (Ascii.eqb a sep); [done|]. by destruct (PyStr.split sep s).
Qed.








(** ** [urlparse] on absolute http and https URLs *)

Lemma remove_unsafe_safe (s : string) : safe s -> Urllib.remove_unsafe s = s.
Proof.
  unfold safe. induction s as [|a s IH]; [done|].
  cbn [Urllib.all_chars Urllib.remove_unsafe].
  intros [Ha Hs]%andb_true_iff.
  destruct (Urllib.unsafe_char a); [done|]. by rewrite IH.
Qed.

Lemma safe_app (s t : string) : safe (s +:+ t) <-> safe s /\ safe t.
Proof. unfold safe. rewrite all_chars_app. apply andb_true_iff. Qed.

Lemma clean_http (sch r : string) :
  http_scheme sch -> safe r ->
  Urllib.remove_unsafe (Urllib.lstrip_c0 (sch +:+ "://" +:+ r))
  = sch +:+ "://" +:+ r.
Proof.
  intros [-> | ->] Hr.
  - change (Urllib.lstrip_c0 ("http" +:+ "://" +:+ r))
      with ("http" +:+ "://" +:+ r).
    apply remove_unsafe_safe. apply safe_app. split; [done|].
    apply safe_app. by split.
  - change (Urllib.lstrip_c0 ("https" +:+ "://" +:+ r))
      with ("https" +:+ "://" +:+ r).
    apply remove_unsafe_safe. apply safe_app. split; [done|].
    apply safe_app. by split.
Qed.

Lemma split_scheme_http (sch r : string) :
  http_scheme sch ->
  Urllib.split_scheme (sch +:+ "://" +:+ r) = (sch, "//" +:+ r).
Proof. by intros [-> | ->]. Qed.

Lemma uses_params_http (sch : string) :
  http_scheme sch -> existsb (String.eqb sch) Urllib.uses_params = true.
Proof. by intros [-> | ->]. Qed.

(** The parse of [sch://r]: network location up to the first of [/?#],
    then fragment, query and path parameters cut off in that order. *)
Lemma urlparse_http (sch r : string) :
  http_scheme sch -> safe r ->
  Urllib.urlparse (sch +:+ "://" +:+ r)
  = let '(nl, r2) := Urllib.span (fun a => negb (Urllib.netloc_stop a)) r in
    if negb (Urllib.brackets_balanced nl) then None
    else
      let '(r3, frag) := Urllib.cut "#" r2 in
      let '(r4, q) := Urllib.cut "?" r3 in
      Some {| Urllib.scheme := sch; Urllib.netloc := nl;
              Urllib.path := path_of r4;
              Urllib.params := if PyStr.contains ";" r4
                               then snd (Urllib.splitparams r4)
                               else EmptyString;
              Urllib.query := q; Urllib.fragment := frag |}.
Proof.
  intros Hsch Hr. unfold Urllib.urlparse.
  rewrite (clean_http sch r Hsch Hr), (split_scheme_http sch r Hsch).
  change (Urllib.split_netloc ("//" +:+ r))
    with (Urllib.span (fun a => negb (Urllib.netloc_stop a)) r).
  destruct (Urllib.span _ r) as [nl r2].
  destruct (negb (Urllib.brackets_balanced nl)); [done|].
  destruct (Urllib.cut "#" r2) as [r3 frag].
  destruct (Urllib.cut "?" r3) as [r4 q].
  rewrite (uses_params_http sch Hsch). cbn [andb]. unfold path_of.
  destruct (PyStr.contains ";" r4); [|done].
  by destruct (Urllib.splitparams r4).
Qed.


Lemma lacks_app (c : ascii) (s t : string) :
  lacks c (s +:+ t) <-> lacks c s /\ lacks c t.
Proof. unfold lacks. rewrite contains_app. apply orb_false_iff. Qed.









(** The parse of a URL written out from a network location, a path and
    an optional query. *)
Lemma urlparse_canonical (sch nl pth tail : string) :
  http_scheme sch ->
  safe nl -> safe pth -> safe tail ->
  Urllib.all_chars (fun a => negb (Urllib.netloc_stop a)) nl = true ->
  Urllib.brackets_balanced nl = true ->
  lacks "?" pth -> lacks "#" pth -> rooted pth ->
  lacks "#" tail ->
  (tail = EmptyString \/ exists q, tail = String "?" q) ->
  exists parsed,
    Urllib.urlparse (sch +:+ "://" +:+ nl +:+ pth +:+ tail) = Some parsed
    /\ Urllib.scheme parsed = sch
    /\ Urllib.netloc parsed = nl
    /\ Urllib.path parsed = path_of pth
    /\ Urllib.query parsed
       = match tail with
         | EmptyString => EmptyString
         | String _ q => q
         end.
Proof.
  intros Hsch Hsnl Hspth Hstail Hnl Hbal Hq Hf Hroot Hftail Htail.
  rewrite urlparse_http; [|done|].
  2:{ apply safe_app. split; [done|]. apply safe_app. by split. }
  rewrite (span_app _ nl (pth +:+ tail) Hnl).
  2:{ destruct Hroot as [->|[s' ->]].
      - rewrite append_nil. destruct Htail as [->|[q ->]]; [by left|].
        right. by exists "?"%char, q.
      - right. exists "/"%char, (s' +:+ tail). by rewrite append_cons. }
  rewrite Hbal. cbn [negb].
  rewrite (cut_lacks "#" (pth +:+ tail)) by (by apply lacks_app).
  destruct Htail as [->|[q ->]].
  - rewrite append_empty_r, (cut_lacks "?" pth Hq). by eexists.
  - rewrite (cut_app "?" pth q Hq). by eexists.
Qed.

(** ** The fields of a signature *)













(** ** The shape of a signature *)





(** ** Signatures: idempotence and the role of names and values *)





















Lemma url_base_sample : url_base "https" "a" "/x".
Proof.
  unfold url_base. split; [by right|]. repeat split. right. by eexists.
Qed.



(** ** Loading the URL list *)












(** * Further properties of the scanning core *)

(** ** Worker: what a run of the loop does to the shared state *)

Lemma index_is_Some (x : string) (l : list string) :
  x ∈ l -> is_Some (PyStr.index x l).
Proof.
  induction l as [|y l IH]; [by intros ?%elem_of_nil|].
  intros Hin. cbn. destruct (String.eqb_spec y x) as [->|Hne]; [by eexists|].
  apply elem_of_cons in Hin as [->|Hin]; [done|].
  destruct (IH Hin) as [idx ->]. by eexists.
Qed.

Lemma borrow_pairs_app (l1 l2 : list nat) :
  borrow_pairs (l1 ++ l2) = borrow_pairs l1 ++ borrow_pairs l2.
Proof. unfold borrow_pairs. apply flat_map_app. Qed.

(** Everything a run of the loop does, whatever the target answers:
    pages borrowed are returned, one token is taken per attempt, at
    most one finding is recorded and counted, and the findings carry
    the worker's own data. *)
Ltac close_next st :=
  cbn -[bar_truthy]; rewrite ?app_nil_r, <- ?app_assoc;
  try done; try lia;
  try (destruct (bar_truthy (progress_bar st)); unfold update; cbn;
       done || lia).

Lemma payload_loop_effects cfg inject domain param all env (todo : list string) :
  forall i st,
    Forall (fun p => p ∈ all) todo ->
    let st' := payload_loop cfg inject domain param all env i todo st in
    exists (pages : list nat) (found : list finding),
      pool_log st' = pool_log st ++ borrow_pairs pages
      /\ (tokens_taken st' + payloads_tested (st_stats st)
          = tokens_taken st + payloads_tested (st_stats st'))%nat
      /\ (length pages + payloads_tested (st_stats st)
          <= payloads_tested (st_stats st'))%nat
      /\ (payloads_tested (st_stats st') <= payloads_tested (st_stats st)
                                            + length todo)%nat
      /\ (length found <= 1)%nat
      /\ successful_payloads (st_stats st')
         = (successful_payloads (st_stats st) + length found)%nat
      /\ (successful_payloads (st_stats st') + failed_payloads (st_stats st')
          + payloads_tested (st_stats st)
          <= successful_payloads (st_stats st) + failed_payloads (st_stats st)
             + payloads_tested (st_stats st'))%nat
      /\ Forall (finding_of_worker inject domain param todo) found
      /\ (if json_output cfg
          then json_results st' = json_results st ++ found
               /\ results st' = results st
          else json_results st' = json_results st
               /\ length (results st')
                  = (length (results st) + 8 * length found)%nat)
      /\ st_running st' = st_running st
      /\ total (progress_bar st') = total (progress_bar st)
      /\ (n (progress_bar st) <= n (progress_bar st'))%nat
      /\ (failed_payloads (st_stats st) <= failed_payloads (st_stats st'))%nat.
Proof.
  induction todo as [|payload rest IH]; intros i st Hall.
  { exists [], []. cbn. rewrite !app_nil_r.
    split_and!; try done; try lia. destruct (json_output cfg); split; done || lia. }
  apply Forall_cons in Hall as [Hin Hall].
  assert (Hnext : forall st1,
    pool_log st1 = pool_log st ++ borrow_pairs (match
        env i with
        | GetReturns status r d page _ _ =>
            if (status =? 200)%Z && (r || d) then [page] else []
        | GetRaises _ _ => []
        end) ->
    tokens_taken st1 = S (tokens_taken st) ->
    payloads_tested (st_stats st1) = S (payloads_tested (st_stats st)) ->
    successful_payloads (st_stats st1) = successful_payloads (st_stats st) ->
    (failed_payloads (st_stats st1) <= S (failed_payloads (st_stats st)))%nat ->
    (failed_payloads (st_stats st) <= failed_payloads (st_stats st1))%nat ->
    json_results st1 = json_results st -> results st1 = results st ->
    st_running st1 = st_running st ->
    total (progress_bar st1) = total (progress_bar st) ->
    (n (progress_bar st) <= n (progress_bar st1))%nat ->
    let st' := payload_loop cfg inject domain param all env (S i) rest st1 in
    exists (pages : list nat) (found : list finding),
      pool_log st' = pool_log st ++ borrow_pairs pages
      /\ (tokens_taken st' + payloads_tested (st_stats st)
          = tokens_taken st + payloads_tested (st_stats st'))%nat
      /\ (length pages + payloads_tested (st_stats st)
          <= payloads_tested (st_stats st'))%nat
      /\ (payloads_tested (st_stats st') <= payloads_tested (st_stats st)
                                            + length (payload :: rest))%nat
      /\ (length found <= 1)%nat
      /\ successful_payloads (st_stats st')
         = (successful_payloads (st_stats st) + length found)%nat
      /\ (successful_payloads (st_stats st') + failed_payloads (st_stats st')
          + payloads_tested (st_stats st)
          <= successful_payloads (st_stats st) + failed_payloads (st_stats st)
             + payloads_tested (st_stats st'))%nat
      /\ Forall (finding_of_worker inject domain param (payload :: rest)) found
      /\ (if json_output cfg
          then json_results st' = json_results st ++ found
               /\ results st' = results st
          else json_results st' = json_results st
               /\ length (results st')
                  = (length (results st) + 8 * length found)%nat)
      /\ st_running st' = st_running st
      /\ total (progress_bar st') = total (progress_bar st)
      /\ (n (progress_bar st) <= n (progress_bar st'))%nat
      /\ (failed_payloads (st_stats st) <= failed_payloads (st_stats st'))%nat).
  { intros st1 Hpool Htok Htested Hsucc Hfail Hfail0 Hjson Hres Hrun Htotal Hn.
    destruct (IH (S i) st1 Hall)
      as (pages & found & Hp & Ht & Hpg & Hup & Hk & Hs & Hsf & Hprov & Hbuf
          & Hr & Htot & Hnn & Hfl).
    eexists (_ ++ pages), found.
    rewrite borrow_pairs_app, app_assoc, <- Hpool, length_app.
    split; [exact Hp|]. split; [lia|]. split.
    { destruct (env i) as [|status r d ? ? ?]; cbn [length]; [lia|].
      destruct ((status =? 200)%Z && (r || d)); cbn [length]; lia. }
    split; [cbn [length]; lia|]. split; [done|]. split; [lia|].
    split; [lia|]. split.
    { eapply Forall_impl; [exact Hprov|].
      intros f (? & ? & ? & ? & ? & ?). unfold finding_of_worker.
      split_and!; try done. set_solver. }
    split.
    { destruct (json_output cfg); rewrite <- ?Hjson, <- ?Hres; [done|].
      destruct Hbuf as [-> ->]. done. }
    split; [congruence|]. split; [congruence|]. split; lia. }
  cbn [payload_loop].
  destruct (st_running st) eqn:Hrun; cbn [negb].
  2:{ exists [], []. cbn -[bar_truthy]. rewrite !app_nil_r, Hrun.
      split_and!; try done; try lia.
      destruct (json_output cfg); split; done || lia. }
  destruct (env i) as [exc log_ok|status r d page obs ts] eqn:Henv.
  - destruct log_ok.
    + apply Hnext; close_next st.
    + exists [], []. cbn -[bar_truthy]. rewrite !app_nil_r, Hrun.
      split_and!; try done; try lia.
      * destruct (json_output cfg); split; done || lia.
      * destruct (bar_truthy (progress_bar st)) eqn:Hb;
          by rewrite ?bar_truthy_update, ?Hb.
      * destruct (bar_truthy (progress_bar st)) eqn:Hb;
          rewrite ?bar_truthy_update, ?Hb; unfold update; cbn; lia.
  - destruct (Z.eqb_spec status 200) as [->|Hstatus]; cbn [negb].
    2:{ apply Hnext; close_next st. }
    destruct (negb r && negb d) eqn:Hhint.
    { apply Hnext; close_next st.
      destruct r, d; try done. cbn. by rewrite app_nil_r. }
    assert (r || d = true) as Hrd by (by destruct r, d).
    unfold validate_alert.
    destruct (obs_exception obs) as [exc|] eqn:Hexc.
    { apply Hnext; rewrite ?Hrd; close_next st. }
    destruct (obs_dialog obs) as [text|] eqn:Hdialog.
    2:{ rewrite bool_decide_eq_false_2 by (by intros [? ?]).
        apply Hnext; rewrite ?Hrd; close_next st. }
    rewrite bool_decide_eq_true_2 by (by eexists).
    destruct (index_is_Some payload all Hin) as [idx ->].
    set (label := if String.eqb _ "dom" then "DOM Based" else "Reflected").
    exists [page],
      [ {| f_timestamp := ts; f_domain := domain; f_parameter := param;
           f_payload := payload; f_url := inject payload;
           f_alert_text := Some text; f_type := label |} ].
    cbn -[bar_truthy]. rewrite Hrun.
    split; [by rewrite <- app_assoc|]. split; [lia|]. split; [lia|].
    split; [lia|]. split; [lia|]. split; [lia|]. split; [lia|].
    split.
    { constructor; [|constructor]. unfold finding_of_worker. cbn.
      split_and!; try done; [set_solver|].
      subst label. destruct (String.eqb _ "dom"); auto. }
    split.
    { destruct (json_output cfg); [done|]. split; [done|].
      rewrite length_app. cbn -[bar_truthy]. lia. }
    split; [done|].
    split; [by destruct (bar_truthy (progress_bar st))|].
    split; [|lia].
    destruct (bar_truthy (progress_bar st)); unfold update; cbn; lia.
Qed.

Lemma process_parameter_payloads_Some cfg inject url param payloads env st st' :
  process_parameter_payloads cfg inject url param payloads env st = Some st' ->
  exists parsed,
    Urllib.urlparse url = Some parsed
    /\ st' = payload_loop cfg inject (Urllib.netloc parsed) param payloads env
               0 payloads st.
Proof.
  unfold process_parameter_payloads.
  destruct (Urllib.urlparse url) as [parsed|]; [|done].
  intros [= <-]. by exists parsed.
Qed.

Lemma Forall_elem_of_self (l : list string) : Forall (fun p => p ∈ l) l.
Proof. by apply Forall_forall. Qed.

(** X1: a worker returns every page it borrows, the same page and
    before it borrows the next one, whatever the target answers and
    whichever way the loop is left; it borrows at most one page per
    attempt. *)
Theorem worker_returns_every_page cfg inject url param payloads env st st' :
  process_parameter_payloads cfg inject url param payloads env st = Some st' ->
  exists pages : list nat,
    pool_log st' = pool_log st ++ borrow_pairs pages
    /\ (length pages <= attempts st st')%nat.
Proof.
  intros (parsed & _ & ->)%process_parameter_payloads_Some.
  destruct (payload_loop_effects cfg inject (Urllib.netloc parsed) param
              payloads env payloads 0 st (Forall_elem_of_self payloads))
    as (pages & found & Hpool & _ & Hpages & _).
  exists pages. split; [done|]. unfold attempts. lia.
Qed.

Lemma worker_returns_every_page_witness :
  exists pages : list nat,
    pool_log after_hit_second
    = pool_log (fresh_scanner 2) ++ borrow_pairs pages
    /\ (length pages <= attempts (fresh_scanner 2) after_hit_second)%nat.
Proof.
  apply (worker_returns_every_page json_cfg sample_inject "https://a/x?q=1"
           "q" ["p1"; "p2"] env_hit_second).
  reflexivity.
Defined.

(** X2: a worker takes one rate-limiter token for each payload it
    attempts and attempts no more payloads than are loaded; the
    successful and failed payloads it counts never exceed its
    attempts. *)
Theorem worker_counters cfg inject url param payloads env st st' :
  process_parameter_payloads cfg inject url param payloads env st = Some st' ->
  (tokens_taken st' = tokens_taken st + attempts st st')%nat
  /\ (attempts st st' <= length payloads)%nat
  /\ (successful_payloads (st_stats st) <= successful_payloads (st_stats st'))%nat
  /\ ((successful_payloads (st_stats st') - successful_payloads (st_stats st))
      + (failed_payloads (st_stats st') - failed_payloads (st_stats st))
      <= attempts st st')%nat.
Proof.
  intros (parsed & _ & ->)%process_parameter_payloads_Some.
  destruct (payload_loop_effects cfg inject (Urllib.netloc parsed) param
              payloads env payloads 0 st (Forall_elem_of_self payloads))
    as (pages & found & _ & Htok & Hpages & Hup & _ & Hsucc & Hsum & _ & _
        & _ & _ & _ & Hfailed).
  unfold attempts. lia.
Qed.

Lemma worker_counters_witness :
  (tokens_taken after_hit_second
   = tokens_taken (fresh_scanner 2)
     + attempts (fresh_scanner 2) after_hit_second)%nat
  /\ (attempts (fresh_scanner 2) after_hit_second <= 2)%nat.
Proof.
  destruct (worker_counters json_cfg sample_inject "https://a/x?q=1" "q"
              ["p1"; "p2"] env_hit_second (fresh_scanner 2) after_hit_second
              eq_refl) as (Htok & Hatt & _).
  split; [exact Htok|exact Hatt].
Defined.

(** X3: a worker records at most one finding; the finding is for the
    worker's own domain and parameter and for one of the loaded
    payloads, at the URL built for that payload, with the dialog text
    present; it goes to the buffer of the chosen output mode only (one
    record, or a block of eight lines), and [successful_payloads]
    grows by the number of findings recorded. *)
Theorem worker_records_at_most_one_finding cfg inject url param payloads env
    st st' :
  process_parameter_payloads cfg inject url param payloads env st = Some st' ->
  exists (parsed : Urllib.ParseResult) (found : list finding),
    Urllib.urlparse url = Some parsed
    /\ (length found <= 1)%nat
    /\ Forall (finding_of_worker inject (Urllib.netloc parsed) param payloads)
              found
    /\ successful_payloads (st_stats st')
       = (successful_payloads (st_stats st) + length found)%nat
    /\ (if json_output cfg
        then json_results st' = json_results st ++ found
             /\ results st' = results st
        else json_results st' = json_results st
             /\ length (results st')
                = (length (results st) + 8 * length found)%nat).
Proof.
  intros (parsed & Hparse & ->)%process_parameter_payloads_Some.
  destruct (payload_loop_effects cfg inject (Urllib.netloc parsed) param
              payloads env payloads 0 st (Forall_elem_of_self payloads))
    as (pages & found & _ & _ & _ & _ & Hone & Hsucc & _ & Hprov & Hbuf & _).
  by exists parsed, found.
Qed.

Lemma worker_records_at_most_one_finding_witness :
  exists (parsed : Urllib.ParseResult) (found : list finding),
    Urllib.urlparse "https://a/x?q=1" = Some parsed
    /\ (length found <= 1)%nat
    /\ json_results after_hit_second
       = json_results (fresh_scanner 2) ++ found.
Proof.
  destruct (worker_records_at_most_one_finding json_cfg sample_inject
              "https://a/x?q=1" "q" ["p1"; "p2"] env_hit_second
              (fresh_scanner 2) after_hit_second eq_refl)
    as (parsed & found & Hparse & Hone & _ & _ & Hbuf).
  exists parsed, found. split; [exact Hparse|]. split; [exact Hone|].
  exact (proj1 Hbuf).
Defined.

Lemma findings_counted_step cfg st st' (found : list finding) :
  findings_counted cfg st ->
  successful_payloads (st_stats st')
  = (successful_payloads (st_stats st) + length found)%nat ->
  (if json_output cfg
   then json_results st' = json_results st ++ found
        /\ results st' = results st
   else json_results st' = json_results st
        /\ length (results st')
           = (length (results st) + 8 * length found)%nat) ->
  findings_counted cfg st'.
Proof.
  unfold findings_counted, findings_buffered.
  intros [Hshape Hcount] Hsucc Hbuf.
  destruct (json_output cfg).
  - destruct Hbuf as [-> ->]. split; [done|]. rewrite length_app. lia.
  - destruct Hshape as [Hjson [k Hk]]. destruct Hbuf as [-> Hlen].
    split; [split; [done|]; exists (k + length found)%nat; lia|].
    rewrite Hsucc, Hcount, Hlen, Hk.
    replace (8 * k + 8 * length found)%nat
      with ((k + length found) * 8)%nat by lia.
    rewrite Nat.div_mul by done.
    replace (8 * k)%nat with (k * 8)%nat by lia.
    by rewrite Nat.div_mul.
Qed.

(** X4: when the buffers hold whole findings and [successful_payloads]
    counts them, a worker keeps it so; [cleanup] then calls
    [save_results] exactly when the buffer of the chosen mode holds a
    finding. *)
Theorem worker_keeps_findings_counted cfg inject url param payloads env st st' :
  findings_counted cfg st ->
  process_parameter_payloads cfg inject url param payloads env st = Some st' ->
  findings_counted cfg st'
  /\ (cleanup_saves cfg st' = None <-> findings_buffered cfg st' = 0%nat).
Proof.
  intros Hinv Hrun.
  apply process_parameter_payloads_Some in Hrun as (parsed & Hparse & ->).
  destruct (payload_loop_effects cfg inject (Urllib.netloc parsed) param
              payloads env payloads 0 st (Forall_elem_of_self payloads))
    as (pages & found & _ & _ & _ & _ & _ & Hsucc & _ & _ & Hbuf & _).
  set (st' := payload_loop cfg inject (Urllib.netloc parsed) param payloads
                env 0 payloads st) in *.
  pose proof (findings_counted_step cfg st st' found Hinv Hsucc Hbuf) as Hinv'.
  split; [exact Hinv'|].
  destruct Hinv' as [_ Hcount]. unfold cleanup_saves. rewrite Hcount.
  destruct (findings_buffered cfg st') as [|k]; cbn; [done|].
  split; [done|lia].
Qed.

Lemma worker_keeps_findings_counted_witness :
  findings_counted json_cfg after_hit_second
  /\ (cleanup_saves json_cfg after_hit_second = None
      <-> findings_buffered json_cfg after_hit_second = 0%nat).
Proof.
  apply (worker_keeps_findings_counted json_cfg sample_inject
           "https://a/x?q=1" "q" ["p1"; "p2"] env_hit_second
           (fresh_scanner 2)).
  - split; reflexivity.
  - reflexivity.
Defined.

Lemma worker_attempts_and_progress_witness :
  exists st',
    process_parameter_payloads json_cfg sample_inject "https://a/x?q=1" "q"
      ["p1"; "p2"] env_hit_second (fresh_scanner 2) = Some st'
    /\ progress (fresh_scanner 2) st' = 2%nat
    /\ attempts (fresh_scanner 2) st' = 2%nat.
Proof.
  edestruct (worker_attempts_and_progress json_cfg sample_inject
               "https://a/x?q=1" "q" ["p1"; "p2"] env_hit_second
               (fresh_scanner 2))
    as (st' & Hrun & Hprogress & Hhit & _).
  - reflexivity.
  - by apply (bool_decide_unpack _).
  - reflexivity.
  - reflexivity.
  - intros [|[|j]] Hj; reflexivity.
  - exists st'. split; [exact Hrun|]. split; [exact Hprogress|].
    apply (Hhit 1%nat); [cbn; lia|reflexivity|].
    intros [|j] Hj; [reflexivity|lia].
Defined.

Lemma escape_message_without_brackets_witness :
  Telegram.escape_message "Tom & Jerry's"
  = Telegram.html_escape_spec "Tom & Jerry's".
Proof.
  apply escape_message_without_brackets; reflexivity.
Defined.

(** ** Notification adapter: what the posted text cannot contain *)

Lemma replace_removes (c : ascii) (new s : string) :
  lacks c new -> lacks c (PyStr.replace c new s).
Proof.
  intros Hnew. induction s as [|a s IH]; [done|].
  cbn [PyStr.replace]. destruct (Ascii.eqb_spec a c) as [->|Hne].
  - apply lacks_app. by split.
  - unfold lacks in *. cbn [PyStr.contains].
    by destruct (Ascii.eqb_spec a c).
Qed.

Lemma replace_keeps_lacks (c d : ascii) (new s : string) :
  lacks d new -> lacks d s -> lacks d (PyStr.replace c new s).
Proof.
  intros Hnew. induction s as [|a s IH]; [done|].
  unfold lacks in *. cbn [PyStr.replace PyStr.contains].
  destruct (Ascii.eqb a d) eqn:Had; [done|]. intros Hs.
  destruct (Ascii.eqb a c).
  - rewrite contains_app, Hnew. by apply IH.
  - cbn [PyStr.contains]. rewrite Had. by apply IH.
Qed.

(** X7: whatever the message, the text handed to the webhook contains
    none of the characters [<], [>], double quote and apostrophe. *)
Theorem escaped_text_has_no_markup (message : string) :
  let text := Telegram.escape_message message in
  lacks "<" text /\ lacks ">" text /\ lacks Telegram.quot text
  /\ lacks Telegram.apos text.
Proof.
  unfold Telegram.escape_message.
  set (s1 := PyStr.replace "<" "&lt;" message).
  set (s2 := PyStr.replace ">" "&gt;" s1).
  set (s3 := PyStr.replace "&" "&amp;" s2).
  set (s4 := PyStr.replace Telegram.quot "&quot;" s3).
  assert (H1 : lacks "<" s1) by (by apply replace_removes).
  assert (H2 : lacks "<" s2 /\ lacks ">" s2).
  { split; [by apply replace_keeps_lacks|by apply replace_removes]. }
  assert (H3 : lacks "<" s3 /\ lacks ">" s3).
  { destruct H2. split; by apply replace_keeps_lacks. }
  assert (H4 : lacks "<" s4 /\ lacks ">" s4 /\ lacks Telegram.quot s4).
  { destruct H3. split; [by apply replace_keeps_lacks|].
    split; [by apply replace_keeps_lacks|by apply replace_removes]. }
  destruct H4 as (? & ? & ?). cbn zeta.
  split; [by apply replace_keeps_lacks|].
  split; [by apply replace_keeps_lacks|].
  split; [by apply replace_keeps_lacks|by apply replace_removes].
Qed.

Lemma send_telegram_notification_off (cfg : Telegram.settings) (message : string) :
  telegram_off cfg -> Telegram.send_telegram_notification cfg message = None.
Proof.
  unfold telegram_off, Telegram.send_telegram_notification.
  intros [->|[->| ->]]; cbn; [done| |].
  - by rewrite orb_true_r.
  - by rewrite orb_true_r.
Qed.

(** X8: with notifications switched off, or without a bot token or a
    chat identifier (the settings as shipped), a worker posts nothing,
    whatever it finds. *)
Theorem worker_posts_nothing_when_off cfg inject url param payloads env st st' :
  telegram_off (telegram cfg) ->
  process_parameter_payloads cfg inject url param payloads env st = Some st' ->
  notifications st' = notifications st.
Proof.
  intros Hoff (parsed & _ & ->)%process_parameter_payloads_Some.
  generalize 0%nat at 1. generalize payloads at 2 as todo.
  intros todo. revert st.
  induction todo as [|payload rest IH]; intros st i; [done|].
  cbn [payload_loop].
  destruct (st_running st); cbn [negb]; [|done].
  destruct (env i) as [exc [|]|status r d page obs ts].
  - by rewrite IH.
  - done.
  - destruct (status =? 200)%Z; cbn [negb]; [|by rewrite IH].
    destruct (negb r && negb d); [by rewrite IH|].
    unfold validate_alert.
    destruct (obs_exception obs) as [exc|]; [by rewrite IH|].
    destruct (bool_decide (is_Some (obs_dialog obs))); [|by rewrite IH].
    destruct (PyStr.index payload payloads); [|rewrite IH];
      cbn; by rewrite send_telegram_notification_off.
Qed.

Lemma worker_posts_nothing_when_off_witness :
  notifications after_hit_second = notifications (fresh_scanner 2).
Proof.
  apply (worker_posts_nothing_when_off json_cfg sample_inject
           "https://a/x?q=1" "q" ["p1"; "p2"] env_hit_second).
  - by left.
  - reflexivity.
Defined.

(** ** Alert validator: the runtime probes *)

(** X9: what is read back from the two probes ([_domModified],
    [_scriptExecuted]) has no influence on what [validate_alert]
    returns nor on the scanner: the probes are read only when the
    static patterns have already set [dom_detected]. *)
Theorem validate_alert_ignores_probes (obs : page_obs) (st : scanner)
    (m1 s1 m2 s2 : bool) :
  validate_alert (with_probes m1 s1 obs) st
  = validate_alert (with_probes m2 s2 obs) st.
Proof.
  unfold validate_alert. cbn [with_probes obs_exception obs_dialog
                               obs_is_reflected].
  destruct (obs_exception obs); [done|].
  by rewrite !dom_detected_of_static.
Qed.

(** ** Loading: what the deduplicating loops keep *)

Lemma load_urls_snoc (l : list string) (u : string) :
  load_urls (l ++ [u]) = load_url (load_urls l) u.
Proof. unfold load_urls. by rewrite fold_left_app. Qed.

(** The invariant of the loop of [load_files] over the lines read. *)
Lemma load_urls_invariant (all_urls : list string) :
  let st := load_urls all_urls in
  Forall (fun u => validate_url u = true) (valid_urls st)
  /\ sublist (valid_urls st) all_urls
  /\ NoDup (map get_url_signature (valid_urls st))
  /\ seen_signatures st = list_to_set (map get_url_signature (valid_urls st))
  /\ (forall u, u ∈ all_urls -> validate_url u = true ->
                get_url_signature u ∈ seen_signatures st)
  /\ (length (valid_urls st) + skipped_same_params st
      = length (filter (fun u => validate_url u = true) all_urls))%nat.
Proof.
  induction all_urls as [|u l IH] using rev_ind.
  { cbn. split_and!; try done; try constructor. set_solver. }
  destruct IH as (Hvalid & Hsub & Hnd & Hseen & Hall & Hlen).
  cbn zeta. rewrite load_urls_snoc, filter_app, length_app.
  set (st := load_urls l) in *. unfold load_url.
  destruct (validate_url u) eqn:Hu; cbn [negb].
  2:{ rewrite filter_cons_False, filter_nil by (by rewrite Hu).
      cbn [length]. split_and!; try done.
      - by apply sublist_inserts_r.
      - intros u' [Hin|Hin%list_elem_of_singleton]%elem_of_app Hu'.
        + by apply Hall.
        + subst u'. congruence.
      - lia. }
  rewrite filter_cons_True, filter_nil by done. cbn [length].
  destruct (decide (get_url_signature u ∈ seen_signatures st)) as [Hin|Hnin];
    cbn [valid_urls seen_signatures skipped_same_params].
  - split_and!; try done.
    + by apply sublist_inserts_r.
    + intros u' [Hin'|Hin'%list_elem_of_singleton]%elem_of_app Hu'.
      * by apply Hall.
      * by subst u'.
    + lia.
  - split_and!.
    + apply Forall_app. split; [done|]. by apply Forall_singleton.
    + by apply sublist_app.
    + rewrite map_app. apply NoDup_app. split; [done|].
      split; [|apply NoDup_singleton].
      intros s Hs Hs'%list_elem_of_singleton. subst s.
      apply Hnin. rewrite Hseen. by apply elem_of_list_to_set.
    + rewrite map_app, list_to_set_app_L, Hseen. cbn. set_solver.
    + intros u' [Hin'|Hin'%list_elem_of_singleton]%elem_of_app Hu'.
      * specialize (Hall u' Hin' Hu'). set_solver.
      * subst u'. set_solver.
    + rewrite length_app. cbn [length]. lia.
Qed.

(** X10: of the lines of the URL list, [load_files] keeps a
    subsequence made of valid URLs with pairwise distinct signatures;
    the signatures seen are exactly those of the URLs kept, every valid
    line has its signature among them, and the valid lines are either
    kept or counted as skipped. *)
Theorem load_urls_keeps_one_per_signature (all_urls : list string) :
  let st := load_urls all_urls in
  Forall (fun u => validate_url u = true) (valid_urls st)
  /\ sublist (valid_urls st) all_urls
  /\ NoDup (map get_url_signature (valid_urls st))
  /\ seen_signatures st = list_to_set (map get_url_signature (valid_urls st))
  /\ (forall u, u ∈ all_urls -> validate_url u = true ->
                get_url_signature u ∈ seen_signatures st)
  /\ (length (valid_urls st) + skipped_same_params st
      = length (filter (fun u => validate_url u = true) all_urls))%nat.
Proof. exact (load_urls_invariant all_urls). Qed.

Lemma load_urls_distinct (l : list string) :
  Forall (fun u => validate_url u = true) l ->
  NoDup (map get_url_signature l) ->
  valid_urls (load_urls l) = l
  /\ seen_signatures (load_urls l) = list_to_set (map get_url_signature l)
  /\ skipped_same_params (load_urls l) = 0%nat.
Proof.
  induction l as [|u l IH] using rev_ind; intros Hvalid Hnd.
  { cbn. split_and!; try done. }
  apply Forall_app in Hvalid as [Hvalid Hu].
  rewrite Forall_singleton in Hu.
  rewrite map_app in Hnd. apply NoDup_app in Hnd as (Hnd & Hfresh & _).
  destruct (IH Hvalid Hnd) as (Hkept & Hseen & Hskip).
  rewrite load_urls_snoc. unfold load_url. rewrite Hu. cbn [negb].
  destruct (decide (get_url_signature u ∈ seen_signatures (load_urls l)))
    as [Hin|Hnin].
  - exfalso. rewrite Hseen in Hin. apply elem_of_list_to_set in Hin.
    apply (Hfresh _ Hin). cbn. set_solver.
  - cbn. rewrite Hkept, Hseen, map_app, list_to_set_app_L. cbn.
    split_and!; try done. set_solver.
Qed.

(** X11: loading is idempotent: a list that [load_files] has kept is
    kept whole when it is loaded again, and nothing of it is skipped. *)
Theorem load_urls_idempotent (all_urls : list string) :
  let kept := valid_urls (load_urls all_urls) in
  valid_urls (load_urls kept) = kept
  /\ skipped_same_params (load_urls kept) = 0%nat.
Proof.
  destruct (load_urls_invariant all_urls) as (Hvalid & _ & Hnd & _).
  destruct (load_urls_distinct _ Hvalid Hnd) as (Hkept & _ & Hskip).
  by split.
Qed.

Lemma fromkeys_spec (l : list string) :
  forall seen : gset string,
    NoDup (PyStr.fromkeys seen l)
    /\ (forall x, x ∈ PyStr.fromkeys seen l <-> x ∈ l /\ x ∉ seen)
    /\ sublist (PyStr.fromkeys seen l) l.
Proof.
  induction l as [|y l IH]; intros seen; cbn [PyStr.fromkeys].
  { split_and!; [constructor|set_solver|done]. }
  destruct (decide (y ∈ seen)) as [Hin|Hnin].
  - destruct (IH seen) as (Hnd & Hel & Hsub).
    split_and!; [done| |by apply sublist_cons].
    intros x. rewrite Hel. set_solver.
  - destruct (IH ({[y]} ∪ seen)) as (Hnd & Hel & Hsub).
    split_and!.
    + apply NoDup_cons. split; [|done]. rewrite Hel. set_solver.
    + intros x. rewrite elem_of_cons, Hel. split.
      * intros [->|[? ?]]; set_solver.
      * intros [[->|?]%elem_of_cons ?]; [by left|].
        destruct (decide (x = y)) as [->|?]; [by left|]. right. set_solver.
    + by apply sublist_skip.
Qed.

Lemma fromkeys_NoDup_id (l : list string) :
  forall seen : gset string,
    NoDup l -> (forall x, x ∈ l -> x ∉ seen) -> PyStr.fromkeys seen l = l.
Proof.
  induction l as [|y l IH]; intros seen Hnd Hfresh; [done|].
  apply NoDup_cons in Hnd as [Hy Hnd]. cbn [PyStr.fromkeys].
  destruct (decide (y ∈ seen)) as [Hin|Hnin].
  - exfalso. apply (Hfresh y); [set_solver|done].
  - f_equal. apply IH; [done|].
    intros x Hx. specialize (Hfresh x). set_solver.
Qed.

Lemma index_cons_ne (x y : string) (l : list string) :
  y <> x -> PyStr.index x (y :: l) = option_map S (PyStr.index x l).
Proof.
  intros Hne. cbn [PyStr.index].
  by destruct (String.eqb_spec y x).
Qed.

(** [fromkeys] keeps the order of the first occurrences. *)
Lemma fromkeys_order (l : list string) :
  forall (seen : gset string) (i j : nat) (p q : string),
    PyStr.fromkeys seen l !! i = Some p ->
    PyStr.fromkeys seen l !! j = Some q ->
    (i < j)%nat ->
    exists a b, PyStr.index p l = Some a /\ PyStr.index q l = Some b
                /\ (a < b)%nat.
Proof.
  induction l as [|y l IH]; intros seen i j p q Hp Hq Hij; [done|].
  cbn [PyStr.fromkeys] in Hp, Hq.
  destruct (decide (y ∈ seen)) as [Hin|Hnin].
  - destruct (IH seen i j p q Hp Hq Hij) as (a & b & Ha & Hb & Hab).
    destruct (fromkeys_spec l seen) as (_ & Hel & _).
    assert (Hpy : y <> p).
    { intros ->. apply list_elem_of_lookup_2, Hel in Hp. by destruct Hp. }
    assert (Hqy : y <> q).
    { intros ->. apply list_elem_of_lookup_2, Hel in Hq. by destruct Hq. }
    exists (S a), (S b). rewrite !index_cons_ne, Ha, Hb by done.
    split; [done|]. split; [done|lia].
  - destruct (fromkeys_spec l ({[y]} ∪ seen)) as (_ & Hel & _).
    destruct j as [|j]; [lia|]. cbn in Hq.
    assert (Hq' : q ∈ l /\ q ∉ ({[y]} ∪ seen : gset string)).
    { apply Hel. by eapply list_elem_of_lookup_2. }
    destruct Hq' as [Hql Hqn].
    assert (Hqy : y <> q) by set_solver.
    destruct i as [|i]; cbn in Hp.
    + injection Hp as <-.
      destruct (index_is_Some q l Hql) as [b Hb].
      exists 0%nat, (S b). rewrite (index_cons_ne q _ l Hqy), Hb.
      split; [|split; [done|lia]].
      cbn [PyStr.index]. by rewrite String.eqb_refl.
    + assert (Hp' : p ∈ l /\ p ∉ ({[y]} ∪ seen : gset string)).
      { apply Hel. by eapply list_elem_of_lookup_2. }
      assert (Hpy : y <> p) by set_solver.
      destruct (IH _ i j p q Hp Hq ltac:(lia)) as (a & b & Ha & Hb & Hab).
      exists (S a), (S b). rewrite !index_cons_ne, Ha, Hb by done.
      split; [done|]. split; [done|lia].
Qed.

(** X12: the payloads as loaded are pairwise distinct, are exactly the
    lines of the file, each once, and stand in the order of their first
    occurrences: one payload comes before another exactly when its
    first occurrence among the lines does.  Loading them again changes
    nothing; hence the position [self.payloads.index(payload)] the
    worker computes is the position of the payload it is at. *)
Theorem load_payloads_dedup (lines : list string) :
  let payloads := load_payloads lines in
  NoDup payloads
  /\ (forall p, p ∈ payloads <-> p ∈ lines)
  /\ (forall i j p q,
        payloads !! i = Some p -> payloads !! j = Some q ->
        ((i < j)%nat
         <-> exists a b, PyStr.index p lines = Some a
                         /\ PyStr.index q lines = Some b /\ (a < b)%nat))
  /\ sublist payloads lines
  /\ hd_error payloads = hd_error lines
  /\ load_payloads payloads = payloads
  /\ (forall i p, payloads !! i = Some p -> PyStr.index p payloads = Some i).
Proof.
  unfold load_payloads.
  destruct (fromkeys_spec lines ∅) as (Hnd & Hel & Hsub).
  split_and!; try done.
  - intros p. rewrite Hel. set_solver.
  - intros i j p q Hp Hq. split; [by apply (fromkeys_order lines ∅)|].
    intros (a & b & Ha & Hb & Hab).
    destruct (Nat.lt_trichotomy i j) as [Hlt|[->|Hgt]]; [done| |].
    + rewrite Hp in Hq. injection Hq as ->. rewrite Ha in Hb.
      injection Hb as ->. lia.
    + destruct (fromkeys_order lines ∅ j i q p Hq Hp Hgt)
        as (b' & a' & Hb' & Ha' & Hlt).
      rewrite Ha in Ha'. rewrite Hb in Hb'.
      injection Ha' as <-. injection Hb' as <-. lia.
  - destruct lines as [|x lines]; [done|]. cbn [PyStr.fromkeys].
    by destruct (decide (x ∈ (∅ : gset string))); [set_solver|].
  - apply fromkeys_NoDup_id; [done|set_solver].
  - intros i p Hi.
    destruct (list_elem_of_split_length _ _ _ Hi) as (pre & post & Heq & Hlen).
    rewrite Heq in Hnd |- *. rewrite Hlen. by apply index_app_middle.
Qed.

(** ** Signature: the names in their order *)




(** ** Rate limiter: bounds, bursts and the call after a sleep *)

Lemma inject_Z_ge_1 (R : Z) : (1 <= R)%Z -> (1 <= inject_Z R)%Q.
Proof. intros HR. rewrite <- (Zle_Qle 1). exact HR. Qed.

Lemma sleep_time_bounds (R : Z) :
  (1 <= R)%Z -> (0 < 1 / inject_Z R)%Q /\ (1 / inject_Z R <= 1)%Q.
Proof.
  intros HR%inject_Z_ge_1.
  assert (0 < inject_Z R)%Q as Hpos by lra.
  split.
  - apply Qlt_shift_div_l; [done|lra].
  - apply Qle_shift_div_r; [done|lra].
Qed.








(** ** Parameter contexts: what they do not distinguish *)

Lemma lower_char_idem (a : ascii) :
  PyStr.lower_char (PyStr.lower_char a) = PyStr.lower_char a.
Proof. destruct a as [[] [] [] [] [] [] [] []]; reflexivity. Qed.

Lemma lower_idem (s : string) : PyStr.lower (PyStr.lower s) = PyStr.lower s.
Proof.
  induction s as [|a s IH]; [done|]. cbn. by rewrite lower_char_idem, IH.
Qed.

Lemma rstrip_trailing (c : ascii) (s : string) :
  PyStr.rstrip c (s +:+ String c EmptyString) = PyStr.rstrip c s.
Proof.
  induction s as [|a s IH].
  - rewrite append_nil. cbn [PyStr.rstrip]. by rewrite Ascii.eqb_refl.
  - rewrite append_cons. cbn [PyStr.rstrip]. by rewrite IH.
Qed.

Lemma path_of_plain (s : string) : lacks ";" s -> path_of s = s.
Proof. unfold lacks, path_of. by intros ->. Qed.

Lemma context_formula (sch nl pth q param : string) :
  url_base sch nl pth -> safe q -> lacks "#" q ->
  get_parameter_context (render_url sch nl pth q) param
  = Some (nl +:+ PyStr.rstrip "/" (path_of pth) +:+ ":" +:+ PyStr.lower param).
Proof.
  intros (Hsch & Hsnl & Hspth & Hnl & Hbal & Hq & Hf & Hroot) Hsq Hhq.
  assert (Hstail : safe ("?" +:+ q)) by (by apply safe_app).
  assert (Hhtail : lacks "#" ("?" +:+ q)) by (by apply lacks_app).
  destruct (urlparse_canonical sch nl pth ("?" +:+ q))
    as (parsed & Hparse & _ & Hn & Hp & _); try done.
  { right. by eexists. }
  unfold get_parameter_context, render_url. rewrite Hparse.
  cbn [mbind option_bind]. by rewrite Hn, Hp.
Qed.

(** X17: for an http or https URL whose network location is ASCII
    without square brackets and whose path has no [;], and for an
    ASCII parameter name, the context is the network location, the path
    without its trailing slashes, a colon and the lower-cased name.
    Two such URLs that differ in the scheme, in a slash at the end of
    the path, in the query or in the case of the parameter name have
    the same context, so that [should_test_parameter] answers [False]
    for the second. *)
Theorem same_context_tested_once (sch sch' nl pth q q' param param' : string)
    (tested tested' : gset string) (answer : bool) :
  url_base sch nl pth -> plain_host nl -> http_scheme sch' ->
  lacks ";" pth ->
  safe q -> lacks "#" q -> safe q' -> lacks "#" q' ->
  ascii_text param -> ascii_text param' ->
  PyStr.lower param = PyStr.lower param' ->
  let url := render_url sch nl pth q in
  let url' := render_url sch' nl (pth +:+ "/") q' in
  should_test_parameter url param tested = Some (answer, tested') ->
  get_parameter_context url param
  = Some (nl +:+ PyStr.rstrip "/" pth +:+ ":" +:+ PyStr.lower param)
  /\ get_parameter_context url' param' = get_parameter_context url param
  /\ should_test_parameter url' param' tested' = Some (false, tested').
Proof.
  intros Hbase _ Hsch' Hsemi Hsq Hhq Hsq' Hhq' _ _ Hlower url url' Hfirst.
  assert (Hbase' : url_base sch' nl (pth +:+ "/")).
  { destruct Hbase as (_ & Hsnl & Hspth & Hnl & Hbal & Hq & Hf & Hroot).
    unfold url_base. split_and!; try done.
    - apply safe_app. by split.
    - apply lacks_app. by split.
    - apply lacks_app. by split.
    - destruct Hroot as [->|[s' ->]]; right; by eexists. }
  assert (Hurl : get_parameter_context url param
                 = Some (nl +:+ PyStr.rstrip "/" pth +:+ ":"
                         +:+ PyStr.lower param)).
  { subst url. rewrite context_formula by done. by rewrite path_of_plain. }
  assert (Hctx : get_parameter_context url' param'
                 = get_parameter_context url param).
  { rewrite Hurl. subst url'. rewrite context_formula by done.
    rewrite path_of_plain by (apply lacks_app; by split).
    change (pth +:+ "/") with (pth +:+ String "/" EmptyString).
    by rewrite rstrip_trailing, Hlower. }
  split; [exact Hurl|]. split; [exact Hctx|].
  rewrite should_test_parameter_spec in Hfirst |- *.
  rewrite Hctx.
  destruct (get_parameter_context url param) as [c|]; [|done].
  injection Hfirst as _ <-.
  rewrite bool_decide_eq_false_2 by set_solver.
  do 2 f_equal. set_solver.
Qed.

Lemma same_context_tested_once_witness :
  get_parameter_context "https://a/x?Q=1" "Q" = Some "a/x:q"
  /\ get_parameter_context "http://a/x/?q=2" "q"
     = get_parameter_context "https://a/x?Q=1" "Q"
  /\ should_test_parameter "http://a/x/?q=2" "q" {["a/x:q"]}
     = Some (false, {["a/x:q"]}).
Proof.
  assert (Hfirst : should_test_parameter "https://a/x?Q=1" "Q" ∅
                   = Some (true, {["a/x:q"]})).
  { rewrite should_test_parameter_spec.
    change (get_parameter_context "https://a/x?Q=1" "Q") with (Some "a/x:q").
    cbv beta iota. rewrite bool_decide_eq_true_2 by set_solver.
    do 2 f_equal; set_solver. }
  apply (same_context_tested_once "https" "http" "a" "/x" "Q=1" "q=2" "Q" "q"
           ∅ {["a/x:q"]} true);
    first [exact url_base_sample | exact Hfirst | by left | reflexivity].
Defined.

(** ** Counting the tests *)

(** X18: a URL that [validate_url] accepts is counted with at least one
    parameter by [load_files]; hence, for a non-empty list of valid
    URLs, [total_tests] is at least the number of URLs times the
    number of payloads, and the progress bar made for it is live as
    soon as there is a payload. *)
Theorem valid_urls_are_counted (urls payloads : list string) :
  Forall (fun u => validate_url u = true) urls ->
  exists total,
    total_tests urls payloads = Some total
    /\ (length urls * length payloads <= total)%nat
    /\ (urls <> [] -> payloads <> [] ->
        bar_truthy {| total := total; n := 0 |} = true).
Proof.
  intros Hvalid.
  assert (Hone : forall u, validate_url u = true ->
            exists names, counted_parameters u = Some names
                          /\ (1 <= length names)%nat).
  { intros u. unfold validate_url, counted_parameters.
    destruct (negb _); [done|].
    destruct (PyStr.contains "?" (Urllib.unquote u)); cbn [negb]; [|done].
    destruct (PyStr.contains "#" (Urllib.unquote u)).
    - destruct (PyStr.item (PyStr.split "#" (Urllib.unquote u)) 1)
        as [after|]; cbn [mbind option_bind]; [|done].
      destruct (PyStr.contains "?" after).
      + destruct (PyStr.item (PyStr.split "?" after) 1) as [qp|];
          cbn [mbind option_bind]; [|done].
        destruct (named_params (PyStr.split "&" qp)) as [|x names]; [done|].
        intros _. eexists. split; [done|]. cbn. lia.
      + destruct (PyStr.item (PyStr.split "?" (Urllib.unquote u)) 1)
          as [qp|]; cbn [mbind option_bind]; [|done].
        destruct (named_params (PyStr.split "&" qp)) as [|x names]; [done|].
        intros _. eexists. split; [done|]. cbn. lia.
    - destruct (PyStr.item (PyStr.split "?" (Urllib.unquote u)) 1)
        as [qp|]; cbn [mbind option_bind]; [|done].
      destruct (named_params (PyStr.split "&" qp)) as [|x names]; [done|].
      intros _. eexists. split; [done|]. cbn. lia. }
  assert (Htotal : exists t, total_parameters urls = Some t
                             /\ (length urls <= t)%nat).
  { induction urls as [|u urls IH]; [by exists 0%nat|].
    apply Forall_cons in Hvalid as [Hu Hvalid].
    destruct (Hone u Hu) as (names & Hnames & Hlen).
    destruct (IH Hvalid) as (t & Ht & Hle).
    cbn [total_parameters]. rewrite Hnames, Ht. cbn [mbind option_bind].
    eexists. split; [done|]. cbn [length]. lia. }
  destruct Htotal as (t & Ht & Hle).
  unfold total_tests. rewrite Ht. cbn [mbind option_bind].
  eexists. split; [done|]. split; [nia|].
  intros Hurls Hpayloads. unfold bar_truthy. cbn [total].
  apply Nat.ltb_lt.
  destruct urls; [done|]. destruct payloads; [done|]. cbn [length] in *. nia.
Qed.

Lemma valid_urls_are_counted_witness :
  exists total,
    total_tests ["https://a/x?u=1&v=2"] ["p1"; "p2"; "p3"] = Some total
    /\ (1 * 3 <= total)%nat.
Proof.
  destruct (valid_urls_are_counted ["https://a/x?u=1&v=2"] ["p1"; "p2"; "p3"])
    as (total & Htotal & Hle & _).
  - by repeat constructor.
  - exists total. split; [exact Htotal|exact Hle].
Defined.

(** ** Request headers *)

Lemma upper_of_lower_char (a : ascii) :
  HeaderManager.is_lower_char a = true ->
  HeaderManager.is_lower_char (upper_char a) = false
  /\ HeaderManager.is_upper_char (upper_char a) = true.
Proof. destruct a as [[] [] [] [] [] [] [] []]; vm_compute; by intros. Qed.

Lemma lower_of_upper_char (a : ascii) :
  HeaderManager.is_upper_char a = true ->
  HeaderManager.is_lower_char (PyStr.lower_char a) = true.
Proof. destruct a as [[] [] [] [] [] [] [] []]; vm_compute; by intros. Qed.

Lemma title_from_idem (s : string) :
  forall b, HeaderManager.title_from b (HeaderManager.title_from b s)
            = HeaderManager.title_from b s.
Proof.
  induction s as [|a s IH]; intros b; [done|].
  cbn [HeaderManager.title_from].
  destruct (HeaderManager.is_lower_char a) eqn:Hl.
  - destruct b; cbn [HeaderManager.title_from].
    + by rewrite Hl, IH.
    + destruct (upper_of_lower_char a Hl) as [-> ->]. by rewrite IH.
  - destruct (HeaderManager.is_upper_char a) eqn:Hu.
    + destruct b; cbn [HeaderManager.title_from].
      * by rewrite (lower_of_upper_char a Hu), IH.
      * by rewrite Hl, Hu, IH.
    + cbn [HeaderManager.title_from]. by rewrite Hl, Hu, IH.
Qed.

Lemma title_idem (s : string) :
  HeaderManager.title (HeaderManager.title s) = HeaderManager.title s.
Proof. apply title_from_idem. Qed.

Lemma titled_fold_other (k : string) (custom : list (string * string)) :
  forall m : gmap string string,
    Forall (fun kv => HeaderManager.title kv.1 <> k) custom ->
    foldl (fun m kv => <[HeaderManager.title kv.1 := kv.2]> m) m custom !! k
    = m !! k.
Proof.
  induction custom as [|[name v] custom IH]; intros m Hother; [done|].
  apply Forall_cons in Hother as [Hname Hother]. cbn [foldl].
  rewrite IH by done. by apply lookup_insert_ne.
Qed.

Lemma merge_headers_lookup (default : gmap string string)
    (custom : list (string * string)) (k : string) :
  HeaderManager.merge_headers default custom !! k
  = match HeaderManager.titled custom !! k with
    | Some v => Some v
    | None => default !! k
    end.
Proof.
  unfold HeaderManager.merge_headers. destruct custom as [|kv custom].
  { unfold HeaderManager.titled. cbn [foldl]. by rewrite lookup_empty. }
  rewrite lookup_union.
  destruct (HeaderManager.titled (kv :: custom) !! k), (default !! k); done.
Qed.

(** X19: for custom headers with ASCII names, [merge_headers] drops no
    default header; a header whose name is the title form of no custom
    name keeps its default value, hence a default header whose name is
    not in title form (such as [DNT]) cannot be overridden; and a
    custom header is found under the title form of its name, with the
    value of the last custom header of that title form. *)
Theorem merge_headers_by_title (default : gmap string string)
    (custom : list (string * string)) (k : string) :
  Forall (fun kv => HeaderManager.is_ascii kv.1 = true) custom ->
  let merged := HeaderManager.merge_headers default custom in
  (is_Some (default !! k) -> is_Some (merged !! k))
  /\ (Forall (fun kv => HeaderManager.title kv.1 <> k) custom ->
      merged !! k = default !! k)
  /\ (HeaderManager.title k <> k -> merged !! k = default !! k)
  /\ (forall pre v post,
        custom = pre ++ (k, v) :: post ->
        Forall (fun kv => HeaderManager.title kv.1 <> HeaderManager.title k)
               post ->
        merged !! HeaderManager.title k = Some v).
Proof.
  intros _ merged. subst merged.
  assert (Hother : Forall (fun kv => HeaderManager.title kv.1 <> k) custom ->
            HeaderManager.merge_headers default custom !! k = default !! k).
  { intros Hf. rewrite merge_headers_lookup. unfold HeaderManager.titled.
    by rewrite titled_fold_other, lookup_empty. }
  split_and!.
  - rewrite merge_headers_lookup. intros Hsome.
    by destruct (HeaderManager.titled custom !! k).
  - exact Hother.
  - intros Hk. apply Hother. apply Forall_forall. intros [name v] _ Heq.
    cbn in Heq. apply Hk. by rewrite <- Heq, title_idem.
  - intros pre v post -> Hpost. rewrite merge_headers_lookup.
    unfold HeaderManager.titled. rewrite foldl_app. cbn [foldl].
    rewrite titled_fold_other by done. cbn [fst snd].
    by rewrite lookup_insert_eq.
Qed.

Lemma merge_headers_by_title_witness :
  HeaderManager.merge_headers {["DNT" := "1"]} [("dnt", "0")] !! "DNT"
  = Some "1"
  /\ HeaderManager.merge_headers {["X-Id" := "1"]} [("x-id", "0")] !! "X-Id"
     = Some "0".
Proof.
  split.
  - destruct (merge_headers_by_title {["DNT" := "1"]} [("dnt", "0")] "DNT")
      as (_ & _ & Hkept & _).
    + by repeat constructor.
    + rewrite Hkept by done. apply lookup_singleton_eq.
  - destruct (merge_headers_by_title {["X-Id" := "1"]} [("x-id", "0")] "x-id")
      as (_ & _ & _ & Hlast).
    + by repeat constructor.
    + exact (Hlast [] "0" [] eq_refl (Forall_nil_2 _)).
Defined.

(** ** Version numbers of the updater *)

Lemma list_gt_irrefl (a : list Z) : list_gt a a = false.
Proof. induction a as [|x a IH]; [done|]. cbn. by rewrite Z.eqb_refl. Qed.

Lemma list_gt_asym (a : list Z) :
  forall b, list_gt a b = true -> list_gt b a = false.
Proof.
  induction a as [|x a IH]; intros [|y b]; cbn; try done.
  rewrite (Z.eqb_sym y x). destruct (x =? y)%Z eqn:Hxy; [by apply IH|].
  intros Hlt. apply Z.ltb_lt in Hlt. apply Z.ltb_ge. lia.
Qed.

Lemma list_gt_trans (a : list Z) :
  forall b c, list_gt a b = true -> list_gt b c = true -> list_gt a c = true.
Proof.
  induction a as [|x a IH]; intros [|y b] [|z c]; cbn; try done.
  destruct (x =? y)%Z eqn:Hxy, (y =? z)%Z eqn:Hyz, (x =? z)%Z eqn:Hxz;
    rewrite ?Z.eqb_eq, ?Z.eqb_neq, ?Z.ltb_lt in *;
    first [lia | by apply IH].
Qed.

Lemma list_gt_total (a : list Z) :
  forall b, a <> b -> list_gt a b = true \/ list_gt b a = true.
Proof.
  induction a as [|x a IH]; intros [|y b] Hne; cbn; try done.
  - by right.
  - by left.
  - rewrite (Z.eqb_sym y x). destruct (x =? y)%Z eqn:Hxy.
    + apply Z.eqb_eq in Hxy as ->. apply IH. congruence.
    + apply Z.eqb_neq in Hxy. rewrite !Z.ltb_lt. lia.
Qed.

Lemma list_gt_first_difference (pre : list Z) (x y : Z) (l l' : list Z) :
  x <> y -> list_gt (pre ++ x :: l) (pre ++ y :: l') = (y <? x)%Z.
Proof.
  intros Hxy. induction pre as [|p pre IH]; cbn.
  - by apply Z.eqb_neq in Hxy as ->.
  - by rewrite Z.eqb_refl.
Qed.

Lemma list_gt_longer (b : list Z) (x : Z) (l : list Z) :
  list_gt (b ++ x :: l) b = true.
Proof. induction b as [|y b IH]; [done|]. cbn. by rewrite Z.eqb_refl. Qed.

(** X20: on version texts made of dot-separated runs of digits,
    [_compare_versions] is a strict total order of the lists of
    numbers: irreflexive, asymmetric, transitive and total on distinct
    lists.  The first component in which two versions differ decides,
    by its numeric value, and a version that continues another one with
    more components is the greater one, also when these are zero. *)
Theorem compare_versions_order (v1 v2 v3 : string) (a b c : list Z) :
  to_ints v1 = Some a -> to_ints v2 = Some b -> to_ints v3 = Some c ->
  _compare_versions v1 v1 = Some false
  /\ (_compare_versions v1 v2 = Some true ->
      _compare_versions v2 v1 = Some false)
  /\ (_compare_versions v1 v2 = Some true ->
      _compare_versions v2 v3 = Some true ->
      _compare_versions v1 v3 = Some true)
  /\ (a <> b -> _compare_versions v1 v2 = Some true
                \/ _compare_versions v2 v1 = Some true)
  /\ (forall pre x y l l',
        a = pre ++ x :: l -> b = pre ++ y :: l' -> x <> y ->
        _compare_versions v1 v2 = Some (y <? x)%Z)
  /\ (forall x l, a = b ++ x :: l -> _compare_versions v1 v2 = Some true).
Proof.
  intros Ha Hb Hc. unfold _compare_versions. rewrite Ha, Hb, Hc.
  cbn [mbind option_bind]. split_and!.
  - by rewrite list_gt_irrefl.
  - intros [= H]. by rewrite (list_gt_asym _ _ H).
  - intros [= H1] [= H2]. by rewrite (list_gt_trans _ _ _ H1 H2).
  - intros Hne. destruct (list_gt_total a b Hne) as [-> | ->]; auto.
  - intros pre x y l l' -> -> Hxy. by rewrite list_gt_first_difference.
  - intros x l ->. by rewrite list_gt_longer.
Qed.

Lemma compare_versions_order_witness :
  _compare_versions "0.0.10" "0.0.9" = Some true
  /\ _compare_versions "0.0.9" "0.0.10" = Some false.
Proof.
  destruct (compare_versions_order "0.0.10" "0.0.9" "1.0"
              [0; 0; 10]%Z [0; 0; 9]%Z [1; 0]%Z eq_refl eq_refl eq_refl)
    as (_ & Hasym & _ & _ & Hfirst & _).
  assert (Hgt : _compare_versions "0.0.10" "0.0.9" = Some true).
  { exact (Hfirst [0; 0]%Z 10%Z 9%Z [] [] eq_refl eq_refl ltac:(lia)). }
  split; [exact Hgt|exact (Hasym Hgt)].
Defined.
